(** * Connectivity health monitor: channel monitor, network monitor, poller
    and query manager of legend-state-supabase-sync, embedded in Rocq.

    Every definition is a transcription of the TypeScript source.  Stateful
    classes become records that are passed explicitly; a callback registered
    with a collaborator becomes a handler function that the collaborator's
    events are dispatched to; a promise becomes the value it settles with. *)

From Stdlib Require Import ZArith Bool List Lia.
From stdpp Require Import base option strings pretty list gmap.
Import ListNotations.

Local Open Scope Z_scope.

(** ** JavaScript values that cross the interfaces of the library *)

Module Js.

(** [Error] objects: the constructor name and the message. *)
Record Error := mkError { name : string; message : string }.

(** The numbers of the model: the safe integers, those strictly between
    -2^53 and 2^53, which a double holds exactly and which print in plain
    decimal. *)
Definition SafeInteger : Type :=
  dsig (λ n : Z, -9007199254740992 < n < 9007199254740992).

(** The values that a callback can throw, a promise can reject with, or an
    untyped record field can hold.  [Other ref text] is any object or
    function that is not an [Error]: its identity, and the string that
    [String(...)] gives for it (what its [toString] returns). *)
Inductive Value :=
| Undefined
| Null
| Bool (b : bool)
| Number (n : SafeInteger)
| Str (s : string)
| ErrorObj (e : Error)
| Other (ref : string) (text : string).

#[global] Instance Error_eq_dec : EqDecision Error.
Proof. solve_decision. Defined.

#[global] Instance Value_eq_dec : EqDecision Value.
Proof. solve_decision. Defined.

(** [new Error(msg)] *)
Definition newError (msg : string) : Error :=
  {| name := "Error"; message := msg |}.

(** [String(v)] *)
Definition String (v : Value) : string :=
  match v with
  | Undefined => "undefined"
  | Null => "null"
  | Bool true => "true"
  | Bool false => "false"
  | Number n => pretty (`n)
  | Str s => s
  | ErrorObj e =>
      if decide (message e = "") then name e
      else if decide (name e = "") then message e
      else name e +:+ ": " +:+ message e
  | Other _ text => text
  end.

(** The source text of a built-in function, as V8 prints it. *)
Definition nativeCode (name : string) : string :=
  "function " +:+ name +:+ "() { [native code] }".

(** The functions that every plain object inherits from
    [Object.prototype] under their own name. *)
Definition objectPrototypeMethods : list string :=
  ["__defineGetter__"; "__defineSetter__"; "hasOwnProperty"; "__lookupGetter__";
   "__lookupSetter__"; "isPrototypeOf"; "propertyIsEnumerable"; "toString";
   "valueOf"; "toLocaleString"].

(** [Object.prototype[key]], what a plain object reads for a key it does
    not have itself: [constructor] is the function [Object], [__proto__]
    is [Object.prototype], the ten methods are functions, and every other
    key is absent. *)
Definition objectPrototype (key : string) : option Value :=
  if decide (key = "constructor") then Some (Other "Object" (nativeCode "Object"))
  else if decide (key = "__proto__") then Some (Other "Object.prototype" "[object Object]")
  else if decide (key ∈ objectPrototypeMethods)
       then Some (Other ("Object.prototype." +:+ key) (nativeCode key))
       else None.

(** [v === null || v === undefined] *)
Definition isNullish (v : Value) : bool :=
  match v with
  | Undefined | Null => true
  | _ => false
  end.

(** What a promise settles with. *)
Inductive Settled (A : Type) :=
| Fulfilled (a : A)
| Rejected (reason : Value).
Arguments Fulfilled {A} a.
Arguments Rejected {A} reason.

(** How a piece of synchronous code completes. *)
Inductive Completion (A : Type) :=
| Normal (a : A)
| Throw (v : Value).
Arguments Normal {A} a.
Arguments Throw {A} v.

End Js.

(** ** network-monitor.ts: data model *)

Module NetworkTypes.

Inductive NetworkConnectionType :=
| unknown | none | wifi | cellular | bluetooth | ethernet | wimax | vpn | other.

Record NetworkState := {
  isConnected : bool;
  connectionType : NetworkConnectionType;
  isInternetReachable : option bool
}.

End NetworkTypes.

(** ** channel-monitor.ts *)

Module ChannelMonitor.
Import NetworkTypes.

Inductive ChannelStatus :=
| INITIAL | SUBSCRIBED | CLOSED | CHANNEL_ERROR | TIMED_OUT.

#[global] Instance ChannelStatus_eq_dec : EqDecision ChannelStatus.
Proof. solve_decision. Defined.

(** The string value of each enum member, as a template literal prints it. *)
Definition statusText (s : ChannelStatus) : string :=
  match s with
  | INITIAL => "INITIAL"
  | SUBSCRIBED => "SUBSCRIBED"
  | CLOSED => "CLOSED"
  | CHANNEL_ERROR => "CHANNEL_ERROR"
  | TIMED_OUT => "TIMED_OUT"
  end.

Inductive EventType := INSERT | UPDATE | DELETE.

Record RealtimePayload := {
  commit_timestamp : string;
  errors : option (list string);
  eventType : EventType;
  new : option (gmap string Js.Value);
  old : option (gmap string Js.Value);
  schema : string;
  table : string
}.

Record LastMessageInfo := {
  message : RealtimePayload;
  receivedAt : Z
}.

(** The [code] of a [ChannelError]: a status, or the default ['UNKNOWN']. *)
Inductive ChannelErrorCode :=
| StatusCode (s : ChannelStatus)
| UNKNOWN.

(** [class ChannelError extends Error]: the inherited part and the code. *)
Record ChannelError := {
  super : Js.Error;
  code : ChannelErrorCode
}.

(** [new ChannelError(message, code)] *)
Definition newChannelError (msg : string) (c : ChannelErrorCode) : ChannelError :=
  {| super := {| Js.name := "ChannelError"; Js.message := msg |}; code := c |}.

(** The object held by [state$].  The TypeScript union type restricts which
    combinations are well typed; the object itself has the three fields. *)
Record ChannelMonitorState := {
  status : ChannelStatus;
  lastMessage : option LastMessageInfo;
  error : option ChannelError
}.

(** The argument of [state$.assign]: the keys that are present. *)
Record Patch := {
  set_status : option ChannelStatus;
  set_lastMessage : option (option LastMessageInfo);
  set_error : option (option ChannelError)
}.

(** [state$.assign(patch)]: present keys overwrite, absent keys are kept. *)
Definition assign (p : Patch) (st : ChannelMonitorState) : ChannelMonitorState :=
  {| status := default (status st) (set_status p);
     lastMessage := default (lastMessage st) (set_lastMessage p);
     error := default (error st) (set_error p) |}.

(** The initial value of [state$]. *)
Definition initialState : ChannelMonitorState :=
  {| status := INITIAL; lastMessage := None; error := None |}.

(** [status === CHANNEL_ERROR || status === TIMED_OUT] *)
Definition isErrorStatus (s : ChannelStatus) : bool :=
  match s with
  | CHANNEL_ERROR | TIMED_OUT => true
  | _ => false
  end.

(** The callback passed to [channel.subscribe]. *)
Definition onStatus (s : ChannelStatus) (st : ChannelMonitorState) : ChannelMonitorState :=
  if isErrorStatus s then
    assign {| set_status := Some s;
              set_lastMessage := Some None;
              set_error := Some (Some (newChannelError ("Channel status: " +:+ statusText s) (StatusCode s))) |} st
  else
    assign {| set_status := Some s;
              set_lastMessage := Some None;
              set_error := Some None |} st.

(** The callback passed to [channel.on('postgres_changes', ...)]; [now] is
    the value that [Date.now()] returns inside the callback. *)
Definition onPostgresChanges (now : Z) (payload : RealtimePayload)
  (st : ChannelMonitorState) : ChannelMonitorState :=
  assign {| set_status := None;
            set_lastMessage := Some (Some {| message := payload; receivedAt := now |});
            set_error := Some None |} st.

(** The "Initial status" block at the end of [startMonitoring]. *)
Definition reconcileInitial (s : ChannelStatus) (st : ChannelMonitorState) : ChannelMonitorState :=
  if isErrorStatus s then
    assign {| set_status := Some s;
              set_lastMessage := Some None;
              set_error := Some (Some (newChannelError ("Initial channel status: " +:+ statusText s) (StatusCode s))) |} st
  else
    assign {| set_status := Some s;
              set_lastMessage := Some None;
              set_error := Some None |} st.

(** The injected [IRealtimeChannel]: its readable [state], whether a status
    callback and a ['postgres_changes'] callback are registered, and how
    many times [unsubscribe] was requested. *)
Record Channel := {
  state : ChannelStatus;
  subscribed : bool;
  listening : bool;
  unsubscribeCalls : nat
}.

(** A monitor with its channel, and the rejections that the host saw no
    handler for. *)
Record Monitor := {
  channel : Channel;
  state_ : ChannelMonitorState;
  unhandledRejections : list Js.Value
}.

Definition newMonitor (c : Channel) : Monitor :=
  {| channel := c; state_ := initialState; unhandledRejections := [] |}.

Definition startMonitoring (m : Monitor) : Monitor :=
  let c := channel m in
  {| channel := {| state := state c; subscribed := true; listening := true;
                   unsubscribeCalls := unsubscribeCalls c |};
     state_ := reconcileInitial (state c) (state_ m);
     unhandledRejections := unhandledRejections m |}.

(** [void this.channel.unsubscribe()]: the promise is dropped, so when it
    rejects nothing handles the rejection.  [outcome] is what the transport
    settles the promise with. *)
Definition stopMonitoring (outcome : Js.Settled string) (m : Monitor) : Monitor :=
  let c := channel m in
  {| channel := {| state := state c; subscribed := subscribed c; listening := listening c;
                   unsubscribeCalls := S (unsubscribeCalls c) |};
     state_ := state_ m;
     unhandledRejections :=
       match outcome with
       | Js.Fulfilled _ => unhandledRejections m
       | Js.Rejected v => unhandledRejections m ++ [v]
       end |}.

(** What the transport delivers to the registered callbacks. *)
Inductive TransportEvent :=
| StatusChange (s : ChannelStatus)
| PostgresChanges (payload : RealtimePayload) (now : Z).

Definition deliver (m : Monitor) (ev : TransportEvent) : Monitor :=
  match ev with
  | StatusChange s =>
      let c := channel m in
      {| channel := {| state := s; subscribed := subscribed c; listening := listening c;
                       unsubscribeCalls := unsubscribeCalls c |};
         state_ := if subscribed c then onStatus s (state_ m) else state_ m;
         unhandledRejections := unhandledRejections m |}
  | PostgresChanges payload now =>
      {| channel := channel m;
         state_ := if listening (channel m) then onPostgresChanges now payload (state_ m)
                   else state_ m;
         unhandledRejections := unhandledRejections m |}
  end.

Definition deliverAll (m : Monitor) (evs : list TransportEvent) : Monitor :=
  fold_left deliver evs m.

(** The function that [computeChannelHealth] gives to [computed]; [now] is
    the value of [Date.now()] when the function runs, and the two states are
    what [channelState.get()] and [networkState.get()] return then. *)
Definition healthNow (now : Z) (channelState : ChannelMonitorState)
  (networkState : NetworkState) : bool :=
  let isSubscribed :=
    match status channelState with SUBSCRIBED => true | _ => false end in
  let hasRecentActivity :=
    match lastMessage channelState with
    | Some lm => now - receivedAt lm <? 30000
    | None => false
    end in
  isSubscribed
  && (isConnected networkState
      || match isInternetReachable networkState with Some false => false | _ => true end)
  && hasRecentActivity.

(** A [computed] observable of booleans, as the library keeps it: the value
    of the last run of its function, [None] as long as nobody has read it.
    The library runs the function at the first [get()], and again each
    time one of the observables that the function read is changed; a
    [get()] in between returns the value it kept. *)
Record Computed := { cached : option bool }.


(** [health$.get()] at the time [now], the two observables holding
    [channelState] and [networkState]: the value read, and the computed
    afterwards. *)
Definition get (now : Z) (channelState : ChannelMonitorState)
  (networkState : NetworkState) (health : Computed) : bool * Computed :=
  match cached health with
  | Some value => (value, health)
  | None =>
      let value := healthNow now channelState networkState in
      (value, {| cached := Some value |})
  end.

(** The channel state or the network state is changed at the time [now],
    after which the two observables hold [channelState] and
    [networkState]: a computed that has been read runs its function again;
    one that has not been read yet is left as it is. *)
Definition onChange (now : Z) (channelState : ChannelMonitorState)
  (networkState : NetworkState) (health : Computed) : Computed :=
  match cached health with
  | Some _ => {| cached := Some (healthNow now channelState networkState) |}
  | None => health
  end.


(** *** Predicates and sample data for the properties below *)

(** The payload used by the test suite. *)
Definition testPayload : RealtimePayload :=
  {| commit_timestamp := "2023-01-01T00:00:00Z"; errors := None; eventType := INSERT;
     new := None; old := None; schema := "public"; table := "test" |}.

(** A channel nobody has subscribed to yet, with the given readable state. *)
Definition freshChannel (s : ChannelStatus) : Channel :=
  {| state := s; subscribed := false; listening := false; unsubscribeCalls := 0 |}.

(** The invariant of the data model: a last message only when SUBSCRIBED. *)
Definition messageOnlyWhenSubscribed (st : ChannelMonitorState) : Prop :=
  is_Some (lastMessage st) → status st = SUBSCRIBED.

(** Every data event of the sequence arrives while the status is SUBSCRIBED. *)
Fixpoint dataOnlyWhenSubscribed (m : Monitor) (evs : list TransportEvent) : Prop :=
  match evs with
  | [] => True
  | ev :: evs' =>
      match ev with
      | PostgresChanges _ _ => status (state_ m) = SUBSCRIBED
      | StatusChange _ => True
      end ∧ dataOnlyWhenSubscribed (deliver m ev) evs'
  end.

End ChannelMonitor.

(** ** network-monitor.ts *)

(** [NetInfoState], the raw state reported by the network-info provider. *)
Module NetInfo.
Import NetworkTypes.

Record NetInfoState := {
  isConnected : option bool;
  type : NetworkConnectionType;
  isInternetReachable : option bool
}.

End NetInfo.

Module NetworkMonitor.
Import NetworkTypes.

(** The injected [INetInfo]: how many times [fetch] was called, the
    listeners that are registered (by identity, in registration order) and
    the identity the next registered listener gets. *)
Record INetInfo := {
  fetchCalls : nat;
  listeners : list nat;
  nextListener : nat
}.

(** A monitor: its provider, the [unsubscribe] field (the listener that the
    stored function removes), [state$], and the number of [startMonitoring]
    calls that are suspended at [await this.netInfo.fetch()]. *)
Record Monitor := {
  netInfo : INetInfo;
  unsubscribe : option nat;
  state_ : NetworkState;
  awaitingFetch : nat
}.

Definition initialState : NetworkState :=
  {| isConnected := false; connectionType := unknown; isInternetReachable := None |}.

Definition newMonitor (ni : INetInfo) : Monitor :=
  {| netInfo := ni; unsubscribe := None; state_ := initialState; awaitingFetch := 0 |}.

(** [updateState]: [state.isConnected ?? false] and the two other fields. *)
Definition updateState (s : NetInfo.NetInfoState) (m : Monitor) : Monitor :=
  {| netInfo := netInfo m;
     unsubscribe := unsubscribe m;
     state_ := {| isConnected := default false (NetInfo.isConnected s);
                  connectionType := NetInfo.type s;
                  isInternetReachable := NetInfo.isInternetReachable s |};
     awaitingFetch := awaitingFetch m |}.

(** [netInfo.addEventListener(listener)]: registers a fresh listener and
    returns the function that removes it, represented by its identity. *)
Definition addEventListener (ni : INetInfo) : nat * INetInfo :=
  (nextListener ni,
   {| fetchCalls := fetchCalls ni;
      listeners := listeners ni ++ [nextListener ni];
      nextListener := S (nextListener ni) |}).

(** Calling the function that [addEventListener] returned. *)
Definition removeEventListener (l : nat) (ni : INetInfo) : INetInfo :=
  {| fetchCalls := fetchCalls ni;
     listeners := filter (fun l' => l' ≠ l) (listeners ni);
     nextListener := nextListener ni |}.

(** [startMonitoring], from the call to the suspension at [await]: the
    guard, then the call of [fetch]. *)
Definition startMonitoring_call (m : Monitor) : Monitor :=
  match unsubscribe m with
  | Some _ => m
  | None =>
      {| netInfo := {| fetchCalls := S (fetchCalls (netInfo m));
                       listeners := listeners (netInfo m);
                       nextListener := nextListener (netInfo m) |};
         unsubscribe := None;
         state_ := state_ m;
         awaitingFetch := S (awaitingFetch m) |}
  end.

(** [startMonitoring], from the settlement of the probe to the end: the
    result is the new monitor and what the promise returned by
    [startMonitoring] settles with.  Without a suspended call there is
    nothing to resume. *)
Definition startMonitoring_resume (probe : Js.Settled NetInfo.NetInfoState)
  (m : Monitor) : Monitor * option (Js.Settled unit) :=
  match awaitingFetch m with
  | O => (m, None)
  | S k =>
      let m0 := {| netInfo := netInfo m; unsubscribe := unsubscribe m;
                   state_ := state_ m; awaitingFetch := k |} in
      match probe with
      | Js.Rejected v => (m0, Some (Js.Rejected v))
      | Js.Fulfilled initialState =>
          let m1 := updateState initialState m0 in
          let '(l, ni) := addEventListener (netInfo m1) in
          ({| netInfo := ni; unsubscribe := Some l;
              state_ := state_ m1; awaitingFetch := awaitingFetch m1 |},
           Some (Js.Fulfilled tt))
      end
  end.

Definition stopMonitoring (m : Monitor) : Monitor :=
  match unsubscribe m with
  | Some l =>
      {| netInfo := removeEventListener l (netInfo m);
         unsubscribe := None;
         state_ := state_ m;
         awaitingFetch := awaitingFetch m |}
  | None => m
  end.

(** The provider pushes [s]: every registered listener runs [updateState]. *)
Definition notify (s : NetInfo.NetInfoState) (m : Monitor) : Monitor :=
  fold_left (fun m' _ => updateState s m') (listeners (netInfo m)) m.

(** What can happen to a monitor. *)
Inductive Op :=
| Call
| Resume (probe : Js.Settled NetInfo.NetInfoState)
| Stop
| Notify (s : NetInfo.NetInfoState).

Definition step (m : Monitor) (op : Op) : Monitor :=
  match op with
  | Call => startMonitoring_call m
  | Resume probe => fst (startMonitoring_resume probe m)
  | Stop => stopMonitoring m
  | Notify s => notify s m
  end.

Definition run (m : Monitor) (ops : list Op) : Monitor := fold_left step ops m.

(** [await monitor.startMonitoring()] with a probe that resolves to [s]:
    the call runs to its end before anything else happens. *)
Definition startMonitoring_awaited (s : NetInfo.NetInfoState) (m : Monitor) : Monitor :=
  match unsubscribe m with
  | Some _ => startMonitoring_call m
  | None => fst (startMonitoring_resume (Js.Fulfilled s) (startMonitoring_call m))
  end.

(** *** Sample data for the properties below *)

(** A provider nobody has used yet. *)
Definition freshNetInfo : INetInfo :=
  {| fetchCalls := 0; listeners := []; nextListener := 0 |}.

(** The probe results used by the test suite. *)
Definition wifiState : NetInfo.NetInfoState :=
  {| NetInfo.isConnected := Some true; NetInfo.type := wifi;
     NetInfo.isInternetReachable := Some true |}.

Definition offlineState : NetInfo.NetInfoState :=
  {| NetInfo.isConnected := Some false; NetInfo.type := none;
     NetInfo.isInternetReachable := Some false |}.

End NetworkMonitor.

(** ** poller.ts *)

Module Poller.

(** A [TimerHandle] is an object; its identity is what matters. *)
Record TimerHandle := { timerId : nat }.

#[global] Instance TimerHandle_eq_dec : EqDecision TimerHandle.
Proof. solve_decision. Defined.

(** The state behind a [TimerProvider]: the intervals that are live (handle
    and period, in creation order) and the identity of the next handle. *)
Record Timers := {
  scheduled : list (TimerHandle * Z);
  nextTimer : nat
}.

(** [timerProvider.setInterval(callback, intervalMs)] *)
Definition setInterval (intervalMs : Z) (ts : Timers) : TimerHandle * Timers :=
  let h := {| timerId := nextTimer ts |} in
  (h, {| scheduled := scheduled ts ++ [(h, intervalMs)]; nextTimer := S (nextTimer ts) |}).

(** [timerProvider.clearInterval(handle)], that is [handle.cancel()] *)
Definition clearInterval (h : TimerHandle) (ts : Timers) : Timers :=
  {| scheduled := filter (fun e => e.1 ≠ h) (scheduled ts); nextTimer := nextTimer ts |}.

Definition isScheduled (h : TimerHandle) (ts : Timers) : bool :=
  bool_decide (h ∈ (scheduled ts).*1).

Definition DEFAULT_INTERVAL_MS : Z := 10000.

(** What one call of [refreshFn] does before the caller gets control back:
    it throws, returns a non-promise, or returns a promise that settles
    later. *)
Inductive RefreshResult :=
| Throws (v : Js.Value)
| ReturnsVoid
| ReturnsPromise.

(** [PollerConfig].  [refreshFn k] is the behaviour of the call number [k]
    (from 0); [onError err] is [Some v] when the callback throws [v]. *)
Record PollerConfig := {
  refreshFn : nat → RefreshResult;
  intervalMs : option Z;
  onError : option (Js.Error → option Js.Value)
}.

(** The private fields of a [Poller]. *)
Record Poller := {
  timer : option TimerHandle;
  isRunning : bool
}.

(** A poller in its host: the timer provider's state, the number of calls of
    [refreshFn] so far, the number of refresh promises not settled yet, the
    arguments [onError] was called with, and the rejections of promises
    without a handler. *)
Record World := {
  poller : Poller;
  timers : Timers;
  refreshCalls : nat;
  inFlight : nat;
  onErrorCalls : list Js.Error;
  unhandledRejections : list Js.Value
}.

Definition initialWorld : World :=
  {| poller := {| timer := None; isRunning := false |};
     timers := {| scheduled := []; nextTimer := 0 |};
     refreshCalls := 0; inFlight := 0; onErrorCalls := []; unhandledRejections := [] |}.

(** Code that may throw and that updates the world. *)
Definition M (A : Type) : Type := World → Js.Completion A * World.

Definition ret {A} (a : A) : M A := fun w => (Js.Normal a, w).

Definition bind {A B} (m : M A) (k : A → M B) : M B :=
  fun w => match m w with
           | (Js.Normal a, w') => k a w'
           | (Js.Throw v, w') => (Js.Throw v, w')
           end.

Definition throw {A} (v : Js.Value) : M A := fun w => (Js.Throw v, w).

(** [try { body } catch (error) { handler error }] *)
Definition tryCatch {A} (body : M A) (handler : Js.Value → M A) : M A :=
  fun w => match body w with
           | (Js.Normal a, w') => (Js.Normal a, w')
           | (Js.Throw v, w') => handler v w'
           end.

Definition modify (f : World → World) : M unit := fun w => (Js.Normal tt, f w).

Notation "m ;;; k" := (bind m (fun _ => k))
  (at level 100, right associativity).

Definition setPoller (p : Poller) (w : World) : World :=
  {| poller := p; timers := timers w; refreshCalls := refreshCalls w;
     inFlight := inFlight w; onErrorCalls := onErrorCalls w;
     unhandledRejections := unhandledRejections w |}.

Definition setTimers (ts : Timers) (w : World) : World :=
  {| poller := poller w; timers := ts; refreshCalls := refreshCalls w;
     inFlight := inFlight w; onErrorCalls := onErrorCalls w;
     unhandledRejections := unhandledRejections w |}.

Definition setInFlight (n : nat) (w : World) : World :=
  {| poller := poller w; timers := timers w; refreshCalls := refreshCalls w;
     inFlight := n; onErrorCalls := onErrorCalls w;
     unhandledRejections := unhandledRejections w |}.

(** [error instanceof Error ? error : new Error(String(error))] *)
Definition toError (error : Js.Value) : Js.Error :=
  match error with
  | Js.ErrorObj e => e
  | _ => Js.newError (Js.String error)
  end.

(** [this.refreshFn()] inside [await]: the call is counted; a returned
    promise is now in flight. *)
Definition callRefresh (cfg : PollerConfig) : M unit :=
  fun w =>
    let w1 := {| poller := poller w; timers := timers w;
                 refreshCalls := S (refreshCalls w); inFlight := inFlight w;
                 onErrorCalls := onErrorCalls w;
                 unhandledRejections := unhandledRejections w |} in
    match refreshFn cfg (refreshCalls w) with
    | Throws v => (Js.Throw v, w1)
    | ReturnsVoid => (Js.Normal tt, w1)
    | ReturnsPromise => (Js.Normal tt, setInFlight (S (inFlight w1)) w1)
    end.

(** The [catch] block: [const err = ...; this.onError?.(err)]. *)
Definition catchBlock (cfg : PollerConfig) (error : Js.Value) : M unit :=
  let err := toError error in
  match onError cfg with
  | None => ret tt
  | Some f =>
      fun w =>
        let w1 := {| poller := poller w; timers := timers w;
                     refreshCalls := refreshCalls w; inFlight := inFlight w;
                     onErrorCalls := onErrorCalls w ++ [err];
                     unhandledRejections := unhandledRejections w |} in
        match f err with
        | None => (Js.Normal tt, w1)
        | Some v => (Js.Throw v, w1)
        end
  end.

(** [void (async () => { body })()]: the caller always gets control back
    normally; when the body throws, the promise of the async function
    rejects and nothing handles it. *)
Definition voidAsync (body : M unit) : M unit :=
  fun w => match body w with
           | (Js.Normal _, w') => (Js.Normal tt, w')
           | (Js.Throw v, w') =>
               (Js.Normal tt,
                {| poller := poller w'; timers := timers w';
                   refreshCalls := refreshCalls w'; inFlight := inFlight w';
                   onErrorCalls := onErrorCalls w';
                   unhandledRejections := unhandledRejections w' ++ [v] |})
           end.

(** The callback given to [setInterval], up to the suspension at [await]. *)
Definition intervalCallback (cfg : PollerConfig) : M unit :=
  voidAsync (tryCatch (callRefresh cfg) (catchBlock cfg)).

(** The rest of the async function, resumed when the awaited promise
    settles: a rejection is thrown inside the [try]. *)
Definition resumeAfterAwait (cfg : PollerConfig) (s : Js.Settled unit) : M unit :=
  voidAsync (tryCatch (match s with
                       | Js.Fulfilled _ => ret tt
                       | Js.Rejected v => throw v
                       end)
                      (catchBlock cfg)).

Definition scheduleNext (cfg : PollerConfig) : M unit :=
  fun w =>
    if negb (isRunning (poller w)) then (Js.Normal tt, w)
    else
      let '(h, ts) := setInterval (default DEFAULT_INTERVAL_MS (intervalMs cfg)) (timers w) in
      (Js.Normal tt,
       setPoller {| timer := Some h; isRunning := isRunning (poller w) |} (setTimers ts w)).

Definition start (cfg : PollerConfig) : M unit :=
  fun w =>
    if negb (isRunning (poller w)) then
      (modify (setPoller {| timer := timer (poller w); isRunning := true |}) ;;;
       scheduleNext cfg) w
    else (Js.Normal tt, w).

Definition stop : M unit :=
  fun w =>
    match timer (poller w) with
    | Some h =>
        (Js.Normal tt,
         setPoller {| timer := None; isRunning := false |}
                   (setTimers (clearInterval h (timers w)) w))
    | None => (Js.Normal tt, w)
    end.

Definition getIsRunning (w : World) : bool := isRunning (poller w).

(** What the host does to a poller: the two public methods, the firing of
    an interval, and the settlement of a refresh promise. *)
Inductive Event :=
| Start
| Stop
| Fire (h : TimerHandle)
| Settle (s : Js.Settled unit).

Definition step (cfg : PollerConfig) (w : World) (ev : Event) : Js.Completion unit * World :=
  match ev with
  | Start => start cfg w
  | Stop => stop w
  | Fire h => if isScheduled h (timers w) then intervalCallback cfg w else (Js.Normal tt, w)
  | Settle s =>
      match inFlight w with
      | O => (Js.Normal tt, w)
      | S k => resumeAfterAwait cfg s (setInFlight k w)
      end
  end.

Definition run (cfg : PollerConfig) (w : World) (evs : list Event) : World :=
  fold_left (fun w' ev => (step cfg w' ev).2) evs w.

(** The live intervals, as the test suite's [getScheduledCallbacks] counts
    them. *)
Definition activeCallbacks (w : World) : nat := length (scheduled (timers w)).

(** *** Predicates and sample data for the properties below *)

(** The state of a poller and of its timer provider agree: a stored handle
    means running with exactly that interval live; no handle means stopped
    with no interval live. *)
Definition consistent (w : World) : Prop :=
  match timer (poller w) with
  | Some h => isRunning (poller w) = true ∧ (scheduled (timers w)).*1 = [h]
  | None => isRunning (poller w) = false ∧ scheduled (timers w) = []
  end.

(** The errors that reach [onError] when a refresh fails with [v]. *)
Definition delivered (cfg : PollerConfig) (v : Js.Value) : list Js.Error :=
  match onError cfg with
  | Some _ => [toError v]
  | None => []
  end.

(** How a refresh fails: the call of [refreshFn] throws, or the promise
    that it returned rejects. *)
Inductive FailureKind :=
| ThrowsInCall
| RejectsLater.

(** What the call of [refreshFn] does in a failure of that kind with [v]. *)
Definition failingCall (kind : FailureKind) (v : Js.Value) : RefreshResult :=
  match kind with
  | ThrowsInCall => Throws v
  | RejectsLater => ReturnsPromise
  end.

(** The events of a failing tick: the firing of the interval [h], followed,
    when the call returned a promise, by the rejection of a refresh promise
    with [v]. *)
Definition failingTick (kind : FailureKind) (h : TimerHandle) (v : Js.Value)
  : list Event :=
  match kind with
  | ThrowsInCall => [Fire h]
  | RejectsLater => [Fire h; Settle (Js.Rejected v)]
  end.

(** The [Error] that the [catch] block makes of a thrown value. *)
Definition asError (v : Js.Value) : Js.Error :=
  match v with
  | Js.ErrorObj e => e
  | _ => {| Js.name := "Error"; Js.message := Js.String v |}
  end.

(** A poller whose every refresh throws the string "sync error". *)
Definition throwingConfig : PollerConfig :=
  {| refreshFn := λ _, Throws (Js.Str "sync error");
     intervalMs := Some 1000;
     onError := Some (λ _, None) |}.

(** A poller as the test suite configures it: every refresh returns a
    promise, the interval is 1000 ms, [onError] returns normally. *)
Definition testConfig : PollerConfig :=
  {| refreshFn := λ _, ReturnsPromise;
     intervalMs := Some 1000;
     onError := Some (λ _, None) |}.

End Poller.

(** ** supabase-query-manager.ts: [assertNonNull] and [update] *)

Module SupabaseQueryManager.

(** A record of a table, and the [input] object of a mutation. *)
Abbreviation Row := (gmap string Js.Value).

(** [input[fieldId]] on a plain object: its own key when it has it,
    otherwise what it inherits from [Object.prototype], otherwise
    [undefined]. *)
Definition getField (input : Row) (fieldId : string) : Js.Value :=
  match input !! fieldId with
  | Some v => v
  | None => default Js.Undefined (Js.objectPrototype fieldId)
  end.

Record PostgrestError := { message : string }.

(** The [{ data, error }] object that an awaited query yields. *)
Record PostgrestResponse := {
  data : option (list Row);
  error : option PostgrestError
}.

(** The query built by [from(collection).update(input).eq(field, value).select()]. *)
Record UpdateQuery := {
  collection : string;
  values : Row;
  eqField : string;
  eqValue : Js.Value
}.

(** [assertNonNull(value, fieldName)] *)
Definition assertNonNull (value : Js.Value) (fieldName : string) : Js.Completion unit :=
  if Js.isNullish value then
    Js.Throw (Js.ErrorObj (Js.newError (fieldName +:+ " must be non-null")))
  else Js.Normal tt.

(** [sub] occurs in [s]. *)
Definition contains (sub s : string) : Prop :=
  ∃ pre suf : string, s = pre +:+ sub +:+ suf.

Section WithClient.

(** The injected [ISupabaseClient]: a backend and what awaiting an update
    query does to it. *)
Variable Backend : Type.
Variable execute : UpdateQuery → Backend → PostgrestResponse * Backend.

(** The client with the queries issued through it so far. *)
Record Client := {
  backend : Backend;
  issued : list UpdateQuery
}.

(** [update(collection, input, fieldId)]: what the returned promise settles
    with, and the client afterwards. *)
Definition update (collection : string) (input : Row) (fieldId : string)
  (c : Client) : Js.Settled (option Row) * Client :=
  let idValue := getField input fieldId in
  match assertNonNull idValue ("update(): '" +:+ fieldId +:+ "'") with
  | Js.Throw v => (Js.Rejected v, c)
  | Js.Normal _ =>
      let q := {| collection := collection; values := input;
                  eqField := fieldId; eqValue := idValue |} in
      let '(resp, b) := execute q (backend c) in
      let c' := {| backend := b; issued := issued c ++ [q] |} in
      match error resp with
      | Some e => (Js.Rejected (Js.ErrorObj (Js.newError (message e))), c')
      | None =>
          (Js.Fulfilled (match data resp with
                         | Some (r :: _) => Some r
                         | _ => None
                         end), c')
      end
  end.

End WithClient.

Arguments backend {Backend} c.
Arguments issued {Backend} c.
Arguments update {Backend} execute collection input fieldId c.

(** *** An in-memory client and sample data for the properties below *)

(** An in-memory backend in the manner of the test suite's client: one
    table of records; an update replaces the first record whose field
    equals the value. *)
Fixpoint replaceFirst (field : string) (value : Js.Value) (input : Row)
  (records : list Row) : option Row * list Row :=
  match records with
  | [] => (None, [])
  | r :: rest =>
      if decide (getField r field = value) then (Some (input ∪ r), (input ∪ r) :: rest)
      else let '(hit, rest') := replaceFirst field value input rest in (hit, r :: rest')
  end.

Definition memoryExecute (q : UpdateQuery) (records : list Row)
  : PostgrestResponse * list Row :=
  let '(hit, records') := replaceFirst (eqField q) (eqValue q) (values q) records in
  ({| data := Some (option_list hit); error := None |}, records').

(** The records and the inputs of the test suite's update cases. *)
Definition alice : Row :=
  {[ "id" := Js.Str "1"; "name" := Js.Str "Alice"; "email" := Js.Str "alice@example.com" ]}.

Definition ghostWithoutId : Row := {[ "name" := Js.Str "Ghost" ]}.

Definition ghostWithNullId : Row := {[ "id" := Js.Null; "name" := Js.Str "Ghost" ]}.

Definition aliceUpdated : Row :=
  {[ "id" := Js.Str "1"; "name" := Js.Str "Alice Updated" ]}.

Definition users : Client (list Row) := {| backend := [alice]; issued := [] |}.

End SupabaseQueryManager.

(** ** Rejected promises *)

Module Rejection.

(** A rejection is accounted for when no promise is left rejected without a
    handler, and the rejection either changed the observable state or
    reached an error callback. *)
Definition accountedFor (unhandledBefore unhandledAfter : list Js.Value)
  (stateChanged reachedCallback : Prop) : Prop :=
  unhandledAfter = unhandledBefore ∧ (stateChanged ∨ reachedCallback).

End Rejection.

(** ** Histories of a channel monitor *)

Module ChannelHistory.
Import ChannelMonitor.

(** A new monitor on a channel whose readable state is [s0], after
    [startMonitoring]. *)
Definition started (s0 : ChannelStatus) : Monitor :=
  startMonitoring (newMonitor (freshChannel s0)).

(** The status that the transport reported last, [s0] when it reported
    none. *)
Definition lastStatus (s0 : ChannelStatus) (evs : list TransportEvent) : ChannelStatus :=
  fold_left (λ s ev, match ev with
                     | StatusChange s' => s'
                     | PostgresChanges _ _ => s
                     end) evs s0.


(** An error, when present, comes with no last message, with an error
    status, with that status as its code and with the name of the class. *)
Definition errorWellFormed (st : ChannelMonitorState) : Prop :=
  ∀ e, error st = Some e →
       lastMessage st = None
       ∧ isErrorStatus (status st) = true
       ∧ code e = StatusCode (status st)
       ∧ Js.name (super e) = "ChannelError".

End ChannelHistory.

(** ** Sessions of a network monitor whose calls are awaited *)

Module NetworkSession.
Import NetworkTypes NetworkMonitor.

(** What a caller that awaits every [startMonitoring()] can do, and what
    the provider can do in between. *)
Inductive AwaitedOp :=
| AStart (probe : NetInfo.NetInfoState)
| AStop
| ANotify (s : NetInfo.NetInfoState).

Definition awaitedStep (m : Monitor) (op : AwaitedOp) : Monitor :=
  match op with
  | AStart probe => startMonitoring_awaited probe m
  | AStop => stopMonitoring m
  | ANotify s => notify s m
  end.

Definition runAwaited (m : Monitor) (ops : list AwaitedOp) : Monitor :=
  fold_left awaitedStep ops m.

(** The provider's listeners are the one the monitor can remove (none when
    it holds no handle), no call is suspended, and the identities in use
    are below the next one. *)
Definition tidy (m : Monitor) : Prop :=
  awaitingFetch m = 0%nat
  ∧ listeners (netInfo m) = option_list (unsubscribe m)
  ∧ ∀ l, unsubscribe m = Some l → (l < nextListener (netInfo m))%nat.

End NetworkSession.

(** ** Histories of a poller *)

Module PollerHistory.
Import Poller.

(** [config.intervalMs ?? DEFAULT_INTERVAL_MS], the period given to
    [setInterval]. *)
Definition period (cfg : PollerConfig) : Z :=
  default DEFAULT_INTERVAL_MS (intervalMs cfg).

(** Every live interval has a handle older than the next one and the
    poller's period. *)
Definition timersFresh (cfg : PollerConfig) (w : World) : Prop :=
  Forall (λ e, (timerId e.1 < nextTimer (timers w))%nat ∧ e.2 = period cfg)
         (scheduled (timers w)).

(** No call of [refreshFn] throws. *)
Definition neverThrows (cfg : PollerConfig) : Prop :=
  ∀ k v, refreshFn cfg k ≠ Throws v.

(** The event is not the rejection of a refresh promise. *)
Definition notRejection (ev : Event) : Prop :=
  match ev with
  | Settle (Js.Rejected _) => False
  | _ => True
  end.

End PollerHistory.

(** ** supabase-query-manager.ts: [fetch], [create] and [delete] *)

Module SupabaseCrud.
Import SupabaseQueryManager.

(** [client.from(collection)]: the schema the client was switched to with
    [schema(...)], [None] for the client as given to the constructor, and
    the table. *)
Record From := {
  fromSchema : option string;
  fromTable : string
}.

(** [(data?.[0]) ?? null] *)
Definition firstOrNull (data : option (list Row)) : option Row :=
  match data with
  | Some (r :: _) => Some r
  | _ => None
  end.

Section WithSupabase.

(** The injected [ISupabaseClient]: a backend; the builder that
    [query.select()] returns, that a [selectFn] builds and a [filterFn]
    transforms; and what awaiting each kind of query does. *)
Variable Backend : Type.
Variable Select : Type.
Variable select : From → Select.
Variable awaitSelect : Select → Backend → PostgrestResponse * Backend.
Variable awaitInsert : From → Row → Backend → PostgrestResponse * Backend.
Variable awaitDelete : From → string → Js.Value → Backend → PostgrestResponse * Backend.

(** [fetch(collection, schema, selectFn?, filterFn?)] *)
Definition fetch (collection schema : string) (selectFn : option (From → Select))
  (filterFn : option (Select → Select)) (b : Backend)
  : Js.Settled (option (list Row)) * Backend :=
  let query := {| fromSchema := Some schema; fromTable := collection |} in
  let select0 := match selectFn with
                 | Some f => f query
                 | None => select query
                 end in
  let select1 := match filterFn with
                 | Some f => f select0
                 | None => select0
                 end in
  let '(resp, b') := awaitSelect select1 b in
  match error resp with
  | Some e => (Js.Rejected (Js.ErrorObj (Js.newError (message e))), b')
  | None => (Js.Fulfilled (data resp), b')
  end.

(** [create(collection, input)] *)
Definition create (collection : string) (input : Row) (b : Backend)
  : Js.Settled (option Row) * Backend :=
  let '(resp, b') :=
    awaitInsert {| fromSchema := None; fromTable := collection |} input b in
  match error resp with
  | Some e => (Js.Rejected (Js.ErrorObj (Js.newError (message e))), b')
  | None => (Js.Fulfilled (firstOrNull (data resp)), b')
  end.

(** [delete(collection, id, fieldId)] *)
Definition delete (collection : string) (id : Js.Value) (fieldId : string)
  (b : Backend) : Js.Settled (option Row) * Backend :=
  match assertNonNull id ("delete(): '" +:+ fieldId +:+ "'") with
  | Js.Throw v => (Js.Rejected v, b)
  | Js.Normal _ =>
      let '(resp, b') :=
        awaitDelete {| fromSchema := None; fromTable := collection |} fieldId id b in
      match error resp with
      | Some e => (Js.Rejected (Js.ErrorObj (Js.newError (message e))), b')
      | None => (Js.Fulfilled (firstOrNull (data resp)), b')
      end
  end.

End WithSupabase.

Arguments fetch {Backend Select} select awaitSelect collection schema selectFn filterFn b.
Arguments create {Backend} awaitInsert collection input b.
Arguments delete {Backend} awaitDelete collection id fieldId b.

End SupabaseCrud.

(** ** The in-memory client of the query manager's tests *)

Module TestSupabaseClient.
Import SupabaseQueryManager SupabaseCrud.

(** The two maps that a client and the clients made from it by
    [schema(...)] share: the records and the simulated error of each
    [schema.table] key. *)
Record Store := {
  data : gmap string (list Row);
  errors : gmap string string
}.

(** The key of a table: [`${this.currentSchema}.${table}`]; the client given
    to the manager has [currentSchema = 'public']. *)
Definition key (q : From) : string :=
  default "public" (fromSchema q) +:+ "." +:+ fromTable q.

Definition publicTable (table : string) : From :=
  {| fromSchema := None; fromTable := table |}.

(** [seed(table, records)] and [setError(table, errorMessage)] on the
    client given to the manager. *)
Definition seed (table : string) (records : list Row) (st : Store) : Store :=
  {| data := <[key (publicTable table) := records]> (data st); errors := errors st |}.

Definition setError (table errorMessage : string) (st : Store) : Store :=
  {| data := data st; errors := <[key (publicTable table) := errorMessage]> (errors st) |}.

Definition emptyStore : Store := {| data := ∅; errors := ∅ |}.

(** [this.data.get(key) ?? []] *)
Definition recordsOf (q : From) (st : Store) : list Row :=
  default [] (data st !! key q).

(** [{ data: null, error: { message: errorMessage } }] *)
Definition failure (errorMessage : string) : PostgrestResponse :=
  {| SupabaseQueryManager.data := None;
     error := Some {| message := errorMessage |} |}.

(** [{ data: records, error: null }] *)
Definition success (records : list Row) : PostgrestResponse :=
  {| SupabaseQueryManager.data := Some records; error := None |}.

(** [from(table).select()]: the response object is what [select] returns,
    so it is read from the store as it is when awaited. *)
Definition selectAll (q : From) : Store → PostgrestResponse :=
  λ st, match errors st !! key q with
        | Some errorMessage => failure errorMessage
        | None => success (recordsOf q st)
        end.

Definition awaitSelect (sel : Store → PostgrestResponse) (st : Store)
  : PostgrestResponse * Store :=
  (sel st, st).

(** [from(table).insert(input).select()] *)
Definition awaitInsert (q : From) (input : Row) (st : Store) : PostgrestResponse * Store :=
  match errors st !! key q with
  | Some errorMessage => (failure errorMessage, st)
  | None =>
      (success [input],
       {| data := <[key q := recordsOf q st ++ [input]]> (data st); errors := errors st |})
  end.

(** [records.findIndex(r => r[field] === value)], with the record found.
    Strict equality is equality of primitive values. *)
Definition findRecord (field : string) (value : Js.Value) (records : list Row)
  : option (nat * Row) :=
  list_find (λ r, getField r field = value) records.

(** [from(table).update(input).eq(field, value).select()] *)
Definition awaitUpdate (q : UpdateQuery) (st : Store) : PostgrestResponse * Store :=
  let table := publicTable (collection q) in
  match errors st !! key table with
  | Some errorMessage => (failure errorMessage, st)
  | None =>
      match findRecord (eqField q) (eqValue q) (recordsOf table st) with
      | Some (index, r) =>
          (success [values q ∪ r],
           {| data := <[key table := <[index := values q ∪ r]> (recordsOf table st)]> (data st);
              errors := errors st |})
      | None => (success [], st)
      end
  end.

(** [from(table).delete().eq(field, value).select()] *)
Definition awaitDelete (q : From) (field : string) (value : Js.Value) (st : Store)
  : PostgrestResponse * Store :=
  match errors st !! key q with
  | Some errorMessage => (failure errorMessage, st)
  | None =>
      match findRecord field value (recordsOf q st) with
      | Some (index, r) =>
          (success [r],
           {| data := <[key q := base.delete index (recordsOf q st)]> (data st);
              errors := errors st |})
      | None => (success [], st)
      end
  end.

(** A [SupabaseQueryManager] on this client. *)
Definition fetch (collection schema : string) (st : Store) :=
  SupabaseCrud.fetch selectAll awaitSelect collection schema None None st.

Definition create (collection : string) (input : Row) (st : Store) :=
  SupabaseCrud.create awaitInsert collection input st.

Definition update (collection : string) (input : Row) (fieldId : string) (st : Store) :=
  let '(result, c) :=
    SupabaseQueryManager.update awaitUpdate collection input fieldId
      {| backend := st; issued := [] |} in
  (result, backend c).

Definition delete (collection : string) (id : Js.Value) (fieldId : string) (st : Store) :=
  SupabaseCrud.delete awaitDelete collection id fieldId st.

End TestSupabaseClient.

(** * Properties *)

(** ** The health signal *)

Section Health.
Import NetworkTypes ChannelMonitor.

Lemma healthNow_unfold now cs ns :
  healthNow now cs ns =
  bool_decide (status cs = SUBSCRIBED)
  && (isConnected ns || negb (bool_decide (isInternetReachable ns = Some false)))
  && match lastMessage cs with
     | Some lm => bool_decide (now - receivedAt lm < 30000)
     | None => false
     end.
Proof.
  unfold healthNow.
  f_equal; [f_equal|].
  - by destruct (status cs).
  - by destruct (isInternetReachable ns) as [[]|].
  - destruct (lastMessage cs) as [lm|]; [|done].
    destruct (Z.ltb_spec (now - receivedAt lm) 30000);
      [rewrite bool_decide_eq_true_2 | rewrite bool_decide_eq_false_2]; auto; lia.
Qed.








End Health.

(** ** The channel monitor *)

Section ChannelMonitorProperties.
Import ChannelMonitor.

Lemma onStatus_status s st : status (onStatus s st) = s.
Proof. unfold onStatus. by destruct (isErrorStatus s). Qed.

Lemma onStatus_lastMessage s st : lastMessage (onStatus s st) = None.
Proof. unfold onStatus. by destruct (isErrorStatus s). Qed.

Lemma onStatus_error s st :
  error (onStatus s st) =
  if isErrorStatus s
  then Some (newChannelError ("Channel status: " +:+ statusText s) (StatusCode s))
  else None.
Proof. unfold onStatus. by destruct (isErrorStatus s). Qed.

Lemma reconcileInitial_status s st : status (reconcileInitial s st) = s.
Proof. unfold reconcileInitial. by destruct (isErrorStatus s). Qed.

Lemma reconcileInitial_lastMessage s st : lastMessage (reconcileInitial s st) = None.
Proof. unfold reconcileInitial. by destruct (isErrorStatus s). Qed.

Lemma deliver_registrations m ev :
  subscribed (channel (deliver m ev)) = subscribed (channel m)
  ∧ listening (channel (deliver m ev)) = listening (channel m).
Proof. by destruct ev. Qed.

Lemma deliverAll_cons m ev evs :
  deliverAll m (ev :: evs) = deliverAll (deliver m ev) evs.
Proof. reflexivity. Qed.

Lemma deliverAll_registrations evs : ∀ m,
  subscribed (channel (deliverAll m evs)) = subscribed (channel m)
  ∧ listening (channel (deliverAll m evs)) = listening (channel m).
Proof.
  induction evs as [|ev evs IH]; intros m; [done|].
  rewrite deliverAll_cons. destruct (IH (deliver m ev)) as [-> ->].
  apply deliver_registrations.
Qed.

Lemma deliverAll_snoc m evs ev :
  deliverAll m (evs ++ [ev]) = deliver (deliverAll m evs) ev.
Proof. unfold deliverAll. by rewrite fold_left_app. Qed.

(** A status change re-establishes the invariant whatever the state was. *)
Lemma onStatus_invariant s st : messageOnlyWhenSubscribed (onStatus s st).
Proof.
  unfold messageOnlyWhenSubscribed. rewrite onStatus_lastMessage.
  intros [? ?]. discriminate.
Qed.

(** The invariant survives every sequence whose data events arrive while
    the status is SUBSCRIBED. *)
Lemma invariant_when_data_arrives_subscribed evs : ∀ m,
  messageOnlyWhenSubscribed (state_ m) →
  dataOnlyWhenSubscribed m evs →
  messageOnlyWhenSubscribed (state_ (deliverAll m evs)).
Proof.
  induction evs as [|ev evs IH]; intros m Hinv Hev; [done|].
  destruct Hev as [Hnow Hrest]. rewrite deliverAll_cons. apply IH; [|done].
  destruct ev as [s|payload now]; cbn.
  - destruct (subscribed (channel m)); [apply onStatus_invariant | done].
  - destruct (listening (channel m)); [|done].
    intros _. cbn. by rewrite Hnow.
Qed.

(** C2 (evaluation of the code where it departs from the claim).  A data
    event delivered right after [startMonitoring] on a channel whose state is
    INITIAL leaves the status INITIAL and stores the message; delivered after
    a CHANNEL_ERROR status it stores the message, clears the error and keeps
    the status CHANNEL_ERROR. *)
Theorem data_event_outside_subscribed_sets_lastMessage :
  let m0 := startMonitoring (newMonitor (freshChannel INITIAL)) in
  let m1 := deliverAll m0 [PostgresChanges testPayload 1700000000000] in
  let m2 := deliverAll m0 [StatusChange CHANNEL_ERROR;
                           PostgresChanges testPayload 1700000000000] in
  (status (state_ m1) = INITIAL
   ∧ lastMessage (state_ m1)
     = Some {| message := testPayload; receivedAt := 1700000000000 |}
   ∧ ¬ messageOnlyWhenSubscribed (state_ m1))
  ∧ (status (state_ m2) = CHANNEL_ERROR
     ∧ lastMessage (state_ m2)
       = Some {| message := testPayload; receivedAt := 1700000000000 |}
     ∧ error (state_ m2) = None
     ∧ ¬ messageOnlyWhenSubscribed (state_ m2)).
Proof.
  cbn. repeat split; try reflexivity.
  - intros H. specialize (H (mk_is_Some _ _ eq_refl)). discriminate.
  - intros H. specialize (H (mk_is_Some _ _ eq_refl)). discriminate.
Qed.

(** C4.  After [startMonitoring] and any sequence of callbacks, a status
    callback with CHANNEL_ERROR or TIMED_OUT leaves an error whose code is
    that status and no last message; a status callback with any other status
    leaves no error and no last message. *)
Theorem status_callback_error_and_message :
  ∀ (s0 : ChannelStatus) (evs : list TransportEvent) (s : ChannelStatus),
    let m := deliverAll (startMonitoring (newMonitor (freshChannel s0)))
                        (evs ++ [StatusChange s]) in
    status (state_ m) = s
    ∧ lastMessage (state_ m) = None
    ∧ match s with
      | CHANNEL_ERROR | TIMED_OUT =>
          ∃ e, error (state_ m) = Some e ∧ code e = StatusCode s
      | _ => error (state_ m) = None
      end.
Proof.
  intros s0 evs s m. subst m. rewrite deliverAll_snoc.
  set (m := deliverAll _ evs).
  assert (subscribed (channel m) = true) as Hsub
    by (subst m; by destruct (deliverAll_registrations evs
          (startMonitoring (newMonitor (freshChannel s0)))) as [-> _]).
  cbn. rewrite Hsub.
  rewrite onStatus_status, onStatus_lastMessage, onStatus_error.
  split; [done|]. split; [done|].
  destruct s; cbn; eauto.
Qed.

End ChannelMonitorProperties.

Section Reconciliation.
Import ChannelMonitor.

(** C6 (the claim fails).  For CHANNEL_ERROR the state produced by the
    initial reconciliation is not the state produced by the status callback:
    the messages of the two errors differ. *)
Lemma reconcileInitial_differs_from_onStatus :
  reconcileInitial CHANNEL_ERROR initialState ≠ onStatus CHANNEL_ERROR initialState.
Proof. cbv. discriminate. Qed.

(** C6 (amended).  The initial reconciliation and the status callback
    produce the same status and the same (absent) last message.  For a
    status other than CHANNEL_ERROR and TIMED_OUT the two states are equal.
    For CHANNEL_ERROR and TIMED_OUT both carry an error with the same name
    and the same code, and the messages are "Initial channel status: <s>"
    and "Channel status: <s>", which differ. *)
Theorem reconcileInitial_vs_onStatus :
  ∀ (s : ChannelStatus) (st st' : ChannelMonitorState),
    status (reconcileInitial s st) = status (onStatus s st')
    ∧ lastMessage (reconcileInitial s st) = lastMessage (onStatus s st')
    ∧ if isErrorStatus s
      then ∃ e e',
             error (reconcileInitial s st) = Some e
             ∧ error (onStatus s st') = Some e'
             ∧ code e = StatusCode s ∧ code e' = StatusCode s
             ∧ Js.name (super e) = Js.name (super e')
             ∧ Js.message (super e) = "Initial channel status: " +:+ statusText s
             ∧ Js.message (super e') = "Channel status: " +:+ statusText s
             ∧ Js.message (super e) ≠ Js.message (super e')
      else reconcileInitial s st = onStatus s st'.
Proof.
  intros s st st'.
  rewrite reconcileInitial_status, onStatus_status,
    reconcileInitial_lastMessage, onStatus_lastMessage.
  split; [done|]. split; [done|].
  unfold reconcileInitial, onStatus.
  destruct (isErrorStatus s); [|done].
  eexists _, _. cbn. repeat split. discriminate.
Qed.

(** C7.  Provided the clock does not run backwards between the moment
    [before] observed just before the callback fires and the call of
    [Date.now()] inside it, the data-event callback keeps the status, leaves
    no error, and stores the payload with a reception time that is at least
    [before]. *)
Theorem onPostgresChanges_frame :
  ∀ (st : ChannelMonitorState) (payload : RealtimePayload) (before now : Z),
    before ≤ now →
    let st' := onPostgresChanges now payload st in
    status st' = status st
    ∧ error st' = None
    ∧ ∃ t, lastMessage st' = Some {| message := payload; receivedAt := t |}
           ∧ before ≤ t.
Proof.
  intros st payload before now Hclock st'. subst st'. cbn.
  split; [done|]. split; [done|]. by exists now.
Qed.

(** The callback at a state left by a TIMED_OUT status, 250 ms after the
    observation. *)
Lemma onPostgresChanges_frame_witness :
  let st := onStatus TIMED_OUT initialState in
  let st' := onPostgresChanges 1700000000250 testPayload st in
  status st' = TIMED_OUT
  ∧ error st' = None
  ∧ ∃ t, lastMessage st' = Some {| message := testPayload; receivedAt := t |}
         ∧ 1700000000000 ≤ t.
Proof.
  apply (onPostgresChanges_frame (onStatus TIMED_OUT initialState) testPayload
           1700000000000 1700000000250).
  lia.
Defined.

End Reconciliation.

(** ** The poller *)

Section PollerProperties.
Import Poller.

Lemma run_snoc cfg w evs ev :
  run cfg w (evs ++ [ev]) = (step cfg (run cfg w evs) ev).2.
Proof. unfold run. by rewrite fold_left_app. Qed.

Lemma intervalCallback_frame cfg w :
  (intervalCallback cfg w).1 = Js.Normal tt
  ∧ poller (intervalCallback cfg w).2 = poller w
  ∧ timers (intervalCallback cfg w).2 = timers w
  ∧ refreshCalls (intervalCallback cfg w).2 = S (refreshCalls w).
Proof.
  unfold intervalCallback, voidAsync, tryCatch, callRefresh, catchBlock, ret.
  destruct (refreshFn cfg (refreshCalls w)); [|done..].
  destruct (onError cfg) as [f|]; [|done].
  by destruct (f _).
Qed.

Lemma resumeAfterAwait_frame cfg s w :
  (resumeAfterAwait cfg s w).1 = Js.Normal tt
  ∧ poller (resumeAfterAwait cfg s w).2 = poller w
  ∧ timers (resumeAfterAwait cfg s w).2 = timers w
  ∧ refreshCalls (resumeAfterAwait cfg s w).2 = refreshCalls w.
Proof.
  unfold resumeAfterAwait, voidAsync, tryCatch, catchBlock, ret, throw.
  destruct s as [[]|v]; [done|].
  destruct (onError cfg) as [f|]; [|done].
  by destruct (f _).
Qed.

Lemma step_normal cfg w ev : (step cfg w ev).1 = Js.Normal tt.
Proof.
  destruct ev as [| |h|s]; cbn.
  - unfold start, bind, modify, scheduleNext. by destruct (isRunning (poller w)).
  - unfold stop. by destruct (timer (poller w)).
  - destruct (isScheduled h (timers w)); [apply intervalCallback_frame | done].
  - destruct (inFlight w); [done | apply resumeAfterAwait_frame].
Qed.

Lemma step_consistent cfg w ev : consistent w → consistent (step cfg w ev).2.
Proof.
  intros Hw.
  destruct ev as [| |h|s]; cbn.
  - destruct w as [[[h|] running] [sch next] calls flying errs unh];
      unfold consistent in *; cbn in *; destruct Hw as [-> Hs]; cbn.
    + done.
    + by rewrite Hs.
  - destruct w as [[[h|] running] [sch next] calls flying errs unh];
      unfold consistent in *; cbn in *; destruct Hw as [-> Hs]; cbn; [|done].
    split; [done|].
    destruct sch as [|[h' iv] [|? ?]]; try discriminate.
    injection Hs as ->. cbn. by rewrite decide_False by (intros H; by apply H).
  - destruct (isScheduled h (timers w)); [|done].
    unfold consistent.
    by destruct (intervalCallback_frame cfg w) as (_ & -> & -> & _).
  - destruct (inFlight w) as [|k]; [done|].
    unfold consistent.
    by destruct (resumeAfterAwait_frame cfg s (setInFlight k w)) as (_ & -> & -> & _).
Qed.

Lemma run_consistent cfg evs : ∀ w, consistent w → consistent (run cfg w evs).
Proof.
  induction evs as [|ev evs IH]; intros w Hw; [done|].
  apply IH. by apply step_consistent.
Qed.

Lemma initialWorld_consistent : consistent initialWorld.
Proof. by split. Qed.

(** C5.  After every sequence of [start()], [stop()], interval firings and
    promise settlements, a timer handle is stored exactly when [isRunning]
    is true, the live intervals are exactly the stored handle (so at most
    one); three [start()] calls leave one live interval, [start()] followed
    by [stop()] leaves none. *)
Theorem timer_present_iff_running :
  (∀ (cfg : PollerConfig) (evs : list Event),
     let w := run cfg initialWorld evs in
     (is_Some (timer (poller w)) ↔ isRunning (poller w) = true)
     ∧ (scheduled (timers w)).*1 = match timer (poller w) with
                                   | Some h => [h]
                                   | None => []
                                   end
     ∧ (activeCallbacks w ≤ 1)%nat)
  ∧ (∀ cfg, let w := run cfg initialWorld [Start; Start; Start] in
            activeCallbacks w = 1%nat ∧ getIsRunning w = true)
  ∧ (∀ cfg, let w := run cfg initialWorld [Start; Stop] in
            activeCallbacks w = 0%nat ∧ getIsRunning w = false).
Proof.
  split; [|split].
  - intros cfg evs w.
    pose proof (run_consistent cfg evs _ initialWorld_consistent) as Hw.
    fold w in Hw. unfold consistent, activeCallbacks in *.
    destruct (timer (poller w)) as [h|]; destruct Hw as [Hr Hs].
    + rewrite Hr. split; [by split; eauto|]. split; [done|].
      rewrite <- (length_fmap fst), Hs. cbn. lia.
    + rewrite Hr, Hs. split; [|by cbn; auto with lia].
      split; [intros [? ?] | intros ?]; discriminate.
  - intros cfg. by cbv.
  - intros cfg. by cbv.
Qed.

End PollerProperties.

Section PollerFailures.
Import Poller.

Lemma intervalCallback_throws cfg w v :
  refreshFn cfg (refreshCalls w) = Throws v →
  onErrorCalls (intervalCallback cfg w).2 = onErrorCalls w ++ delivered cfg v.
Proof.
  intros Hv.
  unfold intervalCallback, voidAsync, tryCatch, callRefresh, catchBlock, delivered, ret.
  rewrite Hv. destruct (onError cfg) as [f|]; cbn.
  - by destruct (f _).
  - by rewrite app_nil_r.
Qed.

Lemma resumeAfterAwait_rejected cfg w v :
  onErrorCalls (resumeAfterAwait cfg (Js.Rejected v) w).2
  = onErrorCalls w ++ delivered cfg v.
Proof.
  unfold resumeAfterAwait, voidAsync, tryCatch, catchBlock, delivered, ret, throw.
  destruct (onError cfg) as [f|]; cbn.
  - by destruct (f _).
  - by rewrite app_nil_r.
Qed.

Lemma running_has_live_timer w :
  consistent w → isRunning (poller w) = true →
  ∃ h, timer (poller w) = Some h ∧ isScheduled h (timers w) = true.
Proof.
  unfold consistent. intros Hw Hr.
  destruct (timer (poller w)) as [h|]; destruct Hw as [Hr' Hs]; [|congruence].
  exists h. split; [done|].
  unfold isScheduled. rewrite Hs. apply bool_decide_eq_true. set_solver.
Qed.

Lemma toError_cases v :
  match v with
  | Js.ErrorObj e => toError v = e
  | _ => toError v = Js.newError (Js.String v)
  end.
Proof. by destruct v. Qed.

Lemma intervalCallback_promise cfg w :
  refreshFn cfg (refreshCalls w) = ReturnsPromise →
  inFlight (intervalCallback cfg w).2 = S (inFlight w)
  ∧ onErrorCalls (intervalCallback cfg w).2 = onErrorCalls w.
Proof.
  intros Hp. unfold intervalCallback, voidAsync, tryCatch, callRefresh.
  by rewrite Hp.
Qed.

Lemma delivered_asError cfg v :
  delivered cfg v = match onError cfg with
                    | Some _ => [asError v]
                    | None => []
                    end.
Proof. unfold delivered. destruct (onError cfg); [|done]. by destruct v. Qed.

(** C3.  A running poller has its timer handle stored and live.  When the
    refresh of a tick fails with [v] (the call of [refreshFn] throws [v],
    or it returns a promise and a refresh promise then rejects with [v]),
    every step of the tick completes normally for its caller, [refreshFn]
    was called once, [onError] (when configured) has received exactly one
    more error, which is [v] itself if [v] is an [Error] and otherwise an
    [Error] whose message is [String(v)], the poller is still running with
    the same live handle, and the next firing calls [refreshFn] again. *)
Theorem refresh_failure_is_isolated :
  ∀ (cfg : PollerConfig) (evs : list Event) (kind : FailureKind) (v : Js.Value),
    let w := run cfg initialWorld evs in
    isRunning (poller w) = true →
    refreshFn cfg (refreshCalls w) = failingCall kind v →
    ∃ h, timer (poller w) = Some h
         ∧ isScheduled h (timers w) = true
         ∧ let w' := run cfg w (failingTick kind h v) in
           (step cfg w (Fire h)).1 = Js.Normal tt
           ∧ (step cfg (step cfg w (Fire h)).2 (Settle (Js.Rejected v))).1 = Js.Normal tt
           ∧ refreshCalls w' = S (refreshCalls w)
           ∧ onErrorCalls w'
             = onErrorCalls w ++ match onError cfg with
                                 | Some _ => [asError v]
                                 | None => []
                                 end
           ∧ isRunning (poller w') = true
           ∧ timer (poller w') = Some h
           ∧ isScheduled h (timers w') = true
           ∧ refreshCalls (step cfg w' (Fire h)).2 = S (refreshCalls w').
Proof.
  intros cfg evs kind v w Hrun Hcall.
  destruct (running_has_live_timer w) as (h & Ht & Hlive);
    [apply run_consistent, initialWorld_consistent | done |].
  exists h. split; [done|]. split; [done|]. intros w'.
  split; [apply step_normal|]. split; [apply step_normal|].
  assert (step cfg w (Fire h) = intervalCallback cfg w) as Hfire
    by (cbn; by rewrite Hlive).
  destruct (intervalCallback_frame cfg w) as (_ & Hp1 & Hts1 & Hcalls1).
  assert (refreshCalls w' = S (refreshCalls w)
          ∧ onErrorCalls w' = onErrorCalls w ++ delivered cfg v
          ∧ poller w' = poller w ∧ timers w' = timers w) as (Hcalls & Herr & Hp & Hts).
  { subst w'. destruct kind; cbn [failingTick failingCall] in *.
    - unfold run. cbn [fold_left]. rewrite Hfire.
      by rewrite (intervalCallback_throws cfg w v Hcall).
    - unfold run. cbn [fold_left]. rewrite Hfire.
      destruct (intervalCallback_promise cfg w Hcall) as [Hfly Herr1].
      cbn [step]. rewrite Hfly.
      destruct (resumeAfterAwait_frame cfg (Js.Rejected v)
                  (setInFlight (inFlight w) (intervalCallback cfg w).2))
        as (_ & -> & -> & ->).
      rewrite resumeAfterAwait_rejected. cbn.
      by rewrite Herr1, Hp1, Hts1, Hcalls1. }
  split; [done|]. split; [by rewrite Herr, delivered_asError|].
  rewrite Hp, Hts. split; [done|]. split; [done|]. split; [done|].
  cbn. rewrite Hts, Hlive. apply intervalCallback_frame.
Qed.

(** The poller of the test suite whose refresh returns a promise that
    rejects with a string, and a poller whose refresh throws a string:
    in both, [onError] receives one [Error] with that string as message. *)
Lemma refresh_failure_is_isolated_witness :
  (let w := run testConfig initialWorld [Start] in
   ∃ h, timer (poller w) = Some h
        ∧ isScheduled h (timers w) = true
        ∧ let w' := run testConfig w (failingTick RejectsLater h (Js.Str "string error")) in
          (step testConfig w (Fire h)).1 = Js.Normal tt
          ∧ (step testConfig (step testConfig w (Fire h)).2
               (Settle (Js.Rejected (Js.Str "string error")))).1 = Js.Normal tt
          ∧ refreshCalls w' = S (refreshCalls w)
          ∧ onErrorCalls w'
            = onErrorCalls w ++ [{| Js.name := "Error"; Js.message := "string error" |}]
          ∧ isRunning (poller w') = true
          ∧ timer (poller w') = Some h
          ∧ isScheduled h (timers w') = true
          ∧ refreshCalls (step testConfig w' (Fire h)).2 = S (refreshCalls w'))
  ∧ (let w := run throwingConfig initialWorld [Start] in
     ∃ h, timer (poller w) = Some h
          ∧ isScheduled h (timers w) = true
          ∧ let w' := run throwingConfig w (failingTick ThrowsInCall h (Js.Str "sync error")) in
            (step throwingConfig w (Fire h)).1 = Js.Normal tt
            ∧ (step throwingConfig (step throwingConfig w (Fire h)).2
                 (Settle (Js.Rejected (Js.Str "sync error")))).1 = Js.Normal tt
            ∧ refreshCalls w' = S (refreshCalls w)
            ∧ onErrorCalls w'
              = onErrorCalls w ++ [{| Js.name := "Error"; Js.message := "sync error" |}]
            ∧ isRunning (poller w') = true
            ∧ timer (poller w') = Some h
            ∧ isScheduled h (timers w') = true
            ∧ refreshCalls (step throwingConfig w' (Fire h)).2 = S (refreshCalls w')).
Proof.
  split.
  - apply (refresh_failure_is_isolated testConfig [Start] RejectsLater
             (Js.Str "string error")); reflexivity.
  - apply (refresh_failure_is_isolated throwingConfig [Start] ThrowsInCall
             (Js.Str "sync error")); reflexivity.
Defined.

(** The test "should convert non-Error objects to Error": the promise of
    the first refresh rejects with a string, and [onError] receives one
    [Error] whose message is that string; a second firing calls [refreshFn]
    a second time. *)
Example string_rejection_reaches_onError :
  let w := run testConfig initialWorld
             [Start; Fire {| timerId := 0 |}; Settle (Js.Rejected (Js.Str "string error"))] in
  onErrorCalls w = [{| Js.name := "Error"; Js.message := "string error" |}]
  ∧ unhandledRejections w = []
  ∧ getIsRunning w = true
  ∧ refreshCalls w = 1%nat
  ∧ refreshCalls (run testConfig w [Fire {| timerId := 0 |}]) = 2%nat.
Proof. by vm_compute. Qed.

End PollerFailures.

(** ** The network monitor *)

Section NetworkMonitorProperties.
Import NetworkTypes NetworkMonitor.

(** A call made while the monitor holds an unsubscribe handle does nothing. *)
Lemma startMonitoring_call_guarded m :
  is_Some (unsubscribe m) → startMonitoring_call m = m.
Proof. intros [l Hl]. unfold startMonitoring_call. by rewrite Hl. Qed.

Lemma startMonitoring_awaited_subscribes s m :
  is_Some (unsubscribe (startMonitoring_awaited s m)).
Proof.
  unfold startMonitoring_awaited, startMonitoring_call.
  destruct (unsubscribe m) as [l|] eqn:Hl; [by rewrite Hl|].
  cbn. eauto.
Qed.

(** Two calls, the second made after the first has completed: the second
    one changes nothing, whatever the probe would have answered. *)
Lemma startMonitoring_twice_awaited s s' m :
  startMonitoring_awaited s' (startMonitoring_awaited s m) = startMonitoring_awaited s m.
Proof.
  destruct (startMonitoring_awaited_subscribes s m) as [l Hl].
  unfold startMonitoring_awaited at 1. rewrite Hl.
  apply startMonitoring_call_guarded. eauto.
Qed.

(** On a new monitor, the two awaited calls perform one probe and register
    one listener. *)
Lemma startMonitoring_twice_awaited_counts s s' :
  let m := startMonitoring_awaited s' (startMonitoring_awaited s (newMonitor freshNetInfo)) in
  fetchCalls (netInfo m) = 1%nat ∧ length (listeners (netInfo m)) = 1%nat.
Proof. by cbv. Qed.

(** C8 (evaluation of the code where it departs from the claim).  Two calls
    of [startMonitoring] with no [stopMonitoring] between them, the second
    made while the probe of the first is still pending: both pass the guard,
    two probes are performed and two listeners are registered; only the
    second listener can be removed, so after [stopMonitoring] the first one
    still updates the state. *)
Theorem startMonitoring_twice_overlapping :
  let m := run (newMonitor freshNetInfo)
             [Call; Call; Resume (Js.Fulfilled wifiState); Resume (Js.Fulfilled wifiState)] in
  let m1 := run (newMonitor freshNetInfo) [Call; Resume (Js.Fulfilled wifiState)] in
  (fetchCalls (netInfo m) = 2%nat
   ∧ listeners (netInfo m) = [0%nat; 1%nat]
   ∧ unsubscribe m = Some 1%nat)
  ∧ (fetchCalls (netInfo m1) = 1%nat ∧ listeners (netInfo m1) = [0%nat])
  ∧ m ≠ m1
  ∧ (listeners (netInfo (run m [Stop])) = [0%nat]
     ∧ isConnected (state_ (run m [Stop])) = true
     ∧ isConnected (state_ (run m [Stop; Notify offlineState])) = false).
Proof. cbv. repeat split; try reflexivity. discriminate. Qed.

End NetworkMonitorProperties.

(** ** Rejections of asynchronous operations *)

Section Rejections.

(** C9 (the claim fails).  When the promise of [channel.unsubscribe()]
    rejects after [stopMonitoring], the rejection has no handler and the
    state of the monitor is what it was; the channel monitor has no error
    callback. *)
Lemma unsubscribe_rejection_is_unhandled :
  let m := ChannelMonitor.startMonitoring
             (ChannelMonitor.newMonitor (ChannelMonitor.freshChannel ChannelMonitor.SUBSCRIBED)) in
  let m' := ChannelMonitor.stopMonitoring (Js.Rejected (Js.Str "socket closed")) m in
  ChannelMonitor.unhandledRejections m' = [Js.Str "socket closed"]
  ∧ ChannelMonitor.state_ m' = ChannelMonitor.state_ m
  ∧ ¬ Rejection.accountedFor (ChannelMonitor.unhandledRejections m)
        (ChannelMonitor.unhandledRejections m')
        (ChannelMonitor.state_ m' ≠ ChannelMonitor.state_ m) False.
Proof.
  cbn. split; [done|]. split; [done|].
  intros [Hunhandled _]. discriminate.
Qed.

(** C9 (amended).  A rejection of a poller refresh is caught in the tick:
    the caller of the continuation completes normally, [onError] receives
    the error when it is configured, and the only rejection left without a
    handler is what [onError] itself throws.  A rejection of the network
    probe is not caught: the promise returned by [startMonitoring] rejects
    with the same reason, and the state, the unsubscribe handle and the
    provider are unchanged.  A rejection of the unsubscription requested by
    the channel monitor's [stopMonitoring] is not caught either: it is left
    without a handler and the state is unchanged. *)
Theorem rejections_by_component :
  (∀ (cfg : Poller.PollerConfig) (w : Poller.World) (v : Js.Value),
     let r := Poller.resumeAfterAwait cfg (Js.Rejected v) w in
     r.1 = Js.Normal tt
     ∧ Poller.poller r.2 = Poller.poller w
     ∧ Poller.onErrorCalls r.2 = Poller.onErrorCalls w ++ Poller.delivered cfg v
     ∧ Poller.unhandledRejections r.2
       = Poller.unhandledRejections w
         ++ match Poller.onError cfg with
            | Some f => match f (Poller.toError v) with
                        | Some thrown => [thrown]
                        | None => []
                        end
            | None => []
            end)
  ∧ (∀ (m : NetworkMonitor.Monitor) (v : Js.Value),
       let r := NetworkMonitor.startMonitoring_resume (Js.Rejected v) m in
       r.2 = match NetworkMonitor.awaitingFetch m with
             | O => None
             | S _ => Some (Js.Rejected v)
             end
       ∧ NetworkMonitor.state_ r.1 = NetworkMonitor.state_ m
       ∧ NetworkMonitor.unsubscribe r.1 = NetworkMonitor.unsubscribe m
       ∧ NetworkMonitor.netInfo r.1 = NetworkMonitor.netInfo m)
  ∧ (∀ (m : ChannelMonitor.Monitor) (v : Js.Value),
       let m' := ChannelMonitor.stopMonitoring (Js.Rejected v) m in
       ChannelMonitor.unhandledRejections m'
       = ChannelMonitor.unhandledRejections m ++ [v]
       ∧ ChannelMonitor.state_ m' = ChannelMonitor.state_ m
       ∧ ChannelMonitor.unsubscribeCalls (ChannelMonitor.channel m')
         = S (ChannelMonitor.unsubscribeCalls (ChannelMonitor.channel m))).
Proof.
  split; [|split].
  - intros cfg w v r. subst r.
    destruct (resumeAfterAwait_frame cfg (Js.Rejected v) w) as (Hn & Hp & _ & _).
    split; [done|]. split; [done|].
    split; [apply resumeAfterAwait_rejected|].
    unfold Poller.resumeAfterAwait, Poller.voidAsync, Poller.tryCatch,
      Poller.catchBlock, Poller.ret, Poller.throw.
    destruct (Poller.onError cfg) as [f|]; cbn.
    + destruct (f _); cbn; [done | by rewrite app_nil_r].
    + by rewrite app_nil_r.
  - intros m v r. subst r. unfold NetworkMonitor.startMonitoring_resume.
    by destruct (NetworkMonitor.awaitingFetch m).
  - intros m v m'. by subst m'.
Qed.

End Rejections.

(** ** The query manager *)

Section QueryManagerProperties.
Import SupabaseQueryManager.

Lemma string_app_assoc (s1 s2 s3 : string) :
  (s1 +:+ s2) +:+ s3 = s1 +:+ (s2 +:+ s3).
Proof.
  induction s1 as [|a s1 IH]; [done|].
  change (String a ((s1 +:+ s2) +:+ s3) = String a (s1 +:+ (s2 +:+ s3))).
  by rewrite IH.
Qed.

Lemma assertNonNull_message (value : Js.Value) (fieldName : string) :
  Js.isNullish value = true →
  ∃ msg, assertNonNull value fieldName = Js.Throw (Js.ErrorObj (Js.newError msg))
         ∧ contains "must be non-null" msg.
Proof.
  intros Hnull. unfold assertNonNull. rewrite Hnull.
  eexists. split; [done|].
  exists (fieldName +:+ " "), "".
  by rewrite string_app_assoc.
Qed.

End QueryManagerProperties.

Section QueryManagerUpdate.
Import SupabaseQueryManager.

(** C10.  When [input[fieldId]] is null or undefined, the promise returned
    by [update] rejects with an [Error] whose message contains "must be
    non-null", and the client is as before: no query was issued and the
    backend is unchanged.  When [input[fieldId]] is neither (a value of the
    object's own, or one that it inherits from [Object.prototype]), the
    assertion completes normally and [update] issues its one query. *)
Theorem update_requires_non_null_id :
  ∀ (Backend : Type) (execute : UpdateQuery → Backend → PostgrestResponse * Backend)
    (collection : string) (input : Row) (fieldId : string) (c : Client Backend),
    (Js.isNullish (getField input fieldId) = true →
     ∃ msg,
       update execute collection input fieldId c
       = (Js.Rejected (Js.ErrorObj (Js.newError msg)), c)
       ∧ contains "must be non-null" msg)
    ∧ (Js.isNullish (getField input fieldId) = false →
       assertNonNull (getField input fieldId) ("update(): '" +:+ fieldId +:+ "'")
       = Js.Normal tt
       ∧ issued (update execute collection input fieldId c).2
         = issued c ++ [{| collection := collection; values := input;
                           eqField := fieldId; eqValue := getField input fieldId |}]).
Proof.
  intros Backend execute collection input fieldId c. split; intros Hnull.
  - destruct (assertNonNull_message (getField input fieldId)
                ("update(): '" +:+ fieldId +:+ "'") Hnull) as (msg & Hthrow & Hmsg).
    exists msg. split; [|done].
    unfold update. by rewrite Hthrow.
  - assert (assertNonNull (getField input fieldId) ("update(): '" +:+ fieldId +:+ "'")
            = Js.Normal tt) as Hok
      by (unfold assertNonNull; by rewrite Hnull).
    split; [done|].
    unfold update. rewrite Hok.
    destruct (execute _ (backend c)) as [resp b].
    by destruct (error resp).
Qed.

(** An input without the key, an input whose key is [null], an input
    with an id, and an input read under the inherited key "constructor",
    against the in-memory client. *)
Lemma update_requires_non_null_id_witness :
  (∃ msg,
     update memoryExecute "users" ghostWithoutId "id" users
     = (Js.Rejected (Js.ErrorObj (Js.newError msg)), users)
     ∧ contains "must be non-null" msg)
  ∧ (∃ msg,
       update memoryExecute "users" ghostWithNullId "id" users
       = (Js.Rejected (Js.ErrorObj (Js.newError msg)), users)
       ∧ contains "must be non-null" msg)
  ∧ (assertNonNull (getField aliceUpdated "id") ("update(): '" +:+ "id" +:+ "'")
     = Js.Normal tt
     ∧ issued (update memoryExecute "users" aliceUpdated "id" users).2
       = issued users ++ [{| collection := "users"; values := aliceUpdated;
                             eqField := "id"; eqValue := getField aliceUpdated "id" |}])
  ∧ (assertNonNull (getField ghostWithoutId "constructor")
       ("update(): '" +:+ "constructor" +:+ "'")
     = Js.Normal tt
     ∧ issued (update memoryExecute "users" ghostWithoutId "constructor" users).2
       = issued users
         ++ [{| collection := "users"; values := ghostWithoutId;
                eqField := "constructor";
                eqValue := getField ghostWithoutId "constructor" |}]).
Proof.
  split; [|split; [|split]].
  - apply (update_requires_non_null_id (list Row) memoryExecute "users"
             ghostWithoutId "id" users).
    reflexivity.
  - apply (update_requires_non_null_id (list Row) memoryExecute "users"
             ghostWithNullId "id" users).
    reflexivity.
  - apply (update_requires_non_null_id (list Row) memoryExecute "users"
             aliceUpdated "id" users).
    reflexivity.
  - apply (update_requires_non_null_id (list Row) memoryExecute "users"
             ghostWithoutId "constructor" users).
    reflexivity.
Defined.

(** Reading the inherited key "constructor" gives the function [Object],
    which is not null: the assertion passes and the query is issued. *)
Example update_under_inherited_key :
  getField ghostWithoutId "constructor"
  = Js.Other "Object" (Js.nativeCode "Object")
  ∧ Js.isNullish (getField ghostWithoutId "constructor") = false
  ∧ issued (update memoryExecute "users" ghostWithoutId "constructor" users).2
    = [{| collection := "users"; values := ghostWithoutId;
          eqField := "constructor";
          eqValue := Js.Other "Object" (Js.nativeCode "Object") |}].
Proof. by vm_compute. Qed.

(** The rejected update of the record without an id carries the message
    that the source builds, and the in-memory table still holds Alice. *)
Example update_without_id :
  update memoryExecute "users" ghostWithoutId "id" users
  = (Js.Rejected (Js.ErrorObj (Js.newError "update(): 'id' must be non-null")), users).
Proof. reflexivity. Qed.

End QueryManagerUpdate.

(** * Further properties *)

(** ** Histories of the channel monitor *)

Section ChannelHistoryProperties.
Import NetworkTypes ChannelMonitor ChannelHistory.

Lemma started_registered s0 :
  subscribed (channel (started s0)) = true ∧ listening (channel (started s0)) = true.
Proof. done. Qed.

Lemma deliverAll_started_registered s0 evs :
  subscribed (channel (deliverAll (started s0) evs)) = true
  ∧ listening (channel (deliverAll (started s0) evs)) = true.
Proof. by destruct (deliverAll_registrations evs (started s0)) as [-> ->]. Qed.

(** X1.  Right after a status callback, whatever the status (SUBSCRIBED
    included) and whatever happened before, the health function gives
    false at every time and for every network state; so the health signal,
    whether it was read before the callback or not, reads false at every
    later time. *)
Theorem health_false_after_status_callback :
  ∀ (s0 : ChannelStatus) (evs : list TransportEvent) (s : ChannelStatus)
    (now : Z) (ns : NetworkState),
    let st := state_ (deliverAll (started s0) (evs ++ [StatusChange s])) in
    healthNow now st ns = false
    ∧ ∀ (health : Computed) (later : Z),
        (get later st ns (onChange now st ns health)).1 = false.
Proof.
  intros s0 evs s now ns st.
  assert (∀ t, healthNow t st ns = false) as Hfalse.
  { intros t. subst st. rewrite deliverAll_snoc. cbn.
    destruct (deliverAll_started_registered s0 evs) as [-> _].
    unfold healthNow. rewrite onStatus_lastMessage.
    by rewrite andb_false_r. }
  split; [apply Hfalse|].
  intros [[v|]] later; cbn; apply Hfalse.
Qed.



(** X3.  For a fixed channel state and network state, the health function
    can only go from true to false as the time of its run grows: when it
    gives true at some time it gives true at every earlier time. *)
Theorem health_antitone_in_time :
  ∀ (cs : ChannelMonitorState) (ns : NetworkState) (earlier later : Z),
    earlier ≤ later →
    healthNow later cs ns = true →
    healthNow earlier cs ns = true.
Proof.
  intros cs ns earlier later Hle.
  rewrite !healthNow_unfold, !andb_true_iff.
  intros [Hrest Hage]. split; [done|].
  destruct (lastMessage cs) as [lm|]; [|done].
  apply bool_decide_eq_true in Hage. apply bool_decide_eq_true. lia.
Qed.

Lemma health_antitone_in_time_witness :
  healthNow 1700000000100
    (onPostgresChanges 1700000000000 testPayload (onStatus SUBSCRIBED initialState))
    {| isConnected := true; connectionType := wifi; isInternetReachable := Some true |}
  = true.
Proof.
  apply (health_antitone_in_time _ _ 1700000000100 1700000020000); [lia | reflexivity].
Defined.

Lemma deliver_errorWellFormed m ev :
  errorWellFormed (state_ m) → errorWellFormed (state_ (deliver m ev)).
Proof.
  intros Hm. destruct ev as [s|payload now]; cbn.
  - destruct (subscribed (channel m)); [|done].
    intros e. rewrite onStatus_error, onStatus_lastMessage, onStatus_status.
    destruct (isErrorStatus s) eqn:Hs; [|done].
    by intros [= <-].
  - destruct (listening (channel m)); [|done].
    intros e. cbn. discriminate.
Qed.

(** X4.  After [startMonitoring] and any sequence of callbacks, the state
    never holds both an error and a last message, and an error is only
    present under CHANNEL_ERROR or TIMED_OUT, with that status as its code
    and "ChannelError" as its name. *)
Theorem error_is_well_formed :
  ∀ (s0 : ChannelStatus) (evs : list TransportEvent),
    errorWellFormed (state_ (deliverAll (started s0) evs)).
Proof.
  intros s0 evs.
  assert (errorWellFormed (state_ (started s0))) as Hstart.
  { unfold started, startMonitoring, reconcileInitial. cbn.
    destruct (isErrorStatus s0) eqn:Hs; cbn; intros e; [|done].
    by intros [= <-]. }
  revert Hstart. generalize (started s0). 
  induction evs as [|ev evs IH]; intros m Hm; [done|].
  rewrite deliverAll_cons. apply IH. by apply deliver_errorWellFormed.
Qed.

Lemma deliverAll_status evs : ∀ m,
  subscribed (channel m) = true →
  status (state_ (deliverAll m evs)) = lastStatus (status (state_ m)) evs.
Proof.
  induction evs as [|ev evs IH]; intros m Hsub; [done|].
  rewrite deliverAll_cons, IH
    by (by destruct (deliver_registrations m ev) as [-> _]).
  unfold lastStatus. cbn [fold_left]. f_equal.
  destruct ev as [s|payload now]; cbn.
  - by rewrite Hsub, onStatus_status.
  - by destruct (listening (channel m)).
Qed.

(** X5.  After [startMonitoring] and any sequence of callbacks, the status
    is the one of the last status callback, or the state read from the
    channel at start when there was none: data events never change it. *)
Theorem status_is_last_reported :
  ∀ (s0 : ChannelStatus) (evs : list TransportEvent),
    status (state_ (deliverAll (started s0) evs)) = lastStatus s0 evs.
Proof.
  intros s0 evs. rewrite deliverAll_status by done.
  f_equal. apply reconcileInitial_status.
Qed.

Lemma deliverAll_state_ext evs : ∀ m1 m2,
  state_ m1 = state_ m2 →
  subscribed (channel m1) = subscribed (channel m2) →
  listening (channel m1) = listening (channel m2) →
  state_ (deliverAll m1 evs) = state_ (deliverAll m2 evs).
Proof.
  induction evs as [|ev evs IH]; intros m1 m2 Hst Hsub Hlis; [done|].
  rewrite !deliverAll_cons. apply IH.
  - destruct ev; cbn; by rewrite Hst, ?Hsub, ?Hlis.
  - by destruct ev.
  - by destruct ev.
Qed.

Lemma onStatus_replaces s st st' : onStatus s st = onStatus s st'.
Proof. unfold onStatus. by destruct (isErrorStatus s). Qed.

(** X6.  A status callback replaces the whole state: the state after a
    history depends only on its last status callback and on the data events
    that follow it, not on what came before. *)
Theorem status_callback_forgets_history :
  ∀ (s0 s0' : ChannelStatus) (before before' : list TransportEvent)
    (s : ChannelStatus) (after : list TransportEvent),
    state_ (deliverAll (started s0) (before ++ StatusChange s :: after))
    = state_ (deliverAll (started s0') (before' ++ StatusChange s :: after)).
Proof.
  intros s0 s0' before before' s after.
  unfold deliverAll. rewrite !fold_left_app. cbn [fold_left].
  fold (deliverAll (started s0) before). fold (deliverAll (started s0') before').
  apply deliverAll_state_ext; cbn.
  - destruct (deliverAll_started_registered s0 before) as [-> _].
    destruct (deliverAll_started_registered s0' before') as [-> _].
    apply onStatus_replaces.
  - destruct (deliverAll_started_registered s0 before) as [-> _].
    by destruct (deliverAll_started_registered s0' before') as [-> _].
  - destruct (deliverAll_started_registered s0 before) as [_ ->].
    by destruct (deliverAll_started_registered s0' before') as [_ ->].
Qed.

End ChannelHistoryProperties.

(** ** Sessions of the network monitor *)

Section NetworkSessionProperties.
Import NetworkTypes NetworkMonitor NetworkSession.

Lemma runAwaited_snoc m ops op :
  runAwaited m (ops ++ [op]) = awaitedStep (runAwaited m ops) op.
Proof. unfold runAwaited. by rewrite fold_left_app. Qed.

Lemma runAwaited_app m ops ops' :
  runAwaited m (ops ++ ops') = runAwaited (runAwaited m ops) ops'.
Proof. unfold runAwaited. by rewrite fold_left_app. Qed.

Lemma notify_frame s m :
  netInfo (notify s m) = netInfo m
  ∧ unsubscribe (notify s m) = unsubscribe m
  ∧ awaitingFetch (notify s m) = awaitingFetch m.
Proof.
  unfold notify. generalize (listeners (netInfo m)) as ls.
  intros ls. revert m. induction ls as [|l ls IH]; intros m; [done|].
  cbn [fold_left]. destruct (IH (updateState s m)) as (-> & -> & ->). done.
Qed.

Lemma notify_state s m :
  state_ (notify s m)
  = match listeners (netInfo m) with
    | [] => state_ m
    | _ :: _ => {| isConnected := default false (NetInfo.isConnected s);
                   connectionType := NetInfo.type s;
                   isInternetReachable := NetInfo.isInternetReachable s |}
    end.
Proof.
  unfold notify. destruct (listeners (netInfo m)) as [|l ls]; [done|].
  cbn [fold_left]. revert m.
  induction ls as [|l' ls IH]; intros m; [done|].
  cbn [fold_left]. apply (IH (updateState s m)).
Qed.

Lemma awaitedStep_tidy m op : tidy m → tidy (awaitedStep m op).
Proof.
  destruct op as [probe| |s]; cbn.
  - destruct m as [[calls ls next] [l|] st waiting];
      unfold tidy; cbn; intros (-> & -> & Hfresh); cbn; [done|].
    split; [done|]. split; [done|]. intros l [= <-]. lia.
  - destruct m as [[calls ls next] [l|] st waiting];
      unfold tidy; cbn; intros (-> & -> & Hfresh); cbn; [|done].
    split; [done|]. split; [|done].
    by rewrite decide_False by (intros H; by apply H).
  - unfold tidy. by destruct (notify_frame s m) as (-> & -> & ->).
Qed.

Lemma runAwaited_tidy ops : ∀ m, tidy m → tidy (runAwaited m ops).
Proof.
  induction ops as [|op ops IH]; intros m Hm; [done|].
  apply IH. by apply awaitedStep_tidy.
Qed.

Lemma newMonitor_tidy : tidy (newMonitor freshNetInfo).
Proof. by split. Qed.

(** X7.  When every [startMonitoring()] is awaited, then after any sequence
    of starts, stops and notifications on a new monitor the provider holds
    exactly the listener that the monitor can remove, and none when the
    monitor is stopped: never two listeners, never a leaked one. *)
Theorem awaited_session_has_one_listener :
  ∀ (ops : list AwaitedOp),
    let m := runAwaited (newMonitor freshNetInfo) ops in
    listeners (netInfo m) = option_list (unsubscribe m)
    ∧ (length (listeners (netInfo m)) ≤ 1)%nat
    ∧ awaitingFetch m = 0%nat.
Proof.
  intros ops m.
  destruct (runAwaited_tidy ops _ newMonitor_tidy) as (Hw & Hls & _).
  fold m in Hw, Hls. rewrite Hls. split; [done|]. split; [|done].
  destruct (unsubscribe m); cbn; lia.
Qed.

Lemma runAwaited_notifications ss : ∀ m,
  listeners (netInfo m) = [] →
  state_ (runAwaited m (ANotify <$> ss)) = state_ m.
Proof.
  induction ss as [|s ss IH]; intros m Hm; [done|].
  cbn. fold (runAwaited (notify s m) (ANotify <$> ss)).
  rewrite IH by (by destruct (notify_frame s m) as (-> & _)).
  by rewrite notify_state, Hm.
Qed.

Lemma runAwaited_notifications_handle ss : ∀ m,
  unsubscribe (runAwaited m (ANotify <$> ss)) = unsubscribe m.
Proof.
  induction ss as [|s ss IH]; intros m; [done|].
  cbn. fold (runAwaited (notify s m) (ANotify <$> ss)).
  rewrite IH. by destruct (notify_frame s m) as (_ & -> & _).
Qed.

Lemma stopped_session ops :
  let stopped := runAwaited (newMonitor freshNetInfo) (ops ++ [AStop]) in
  unsubscribe stopped = None
  ∧ listeners (netInfo stopped) = []
  ∧ awaitingFetch stopped = 0%nat.
Proof.
  intros stopped.
  assert (unsubscribe stopped = None) as Hnone.
  { subst stopped. rewrite runAwaited_snoc. cbn. unfold stopMonitoring.
    by destruct (unsubscribe (runAwaited (newMonitor freshNetInfo) ops)) eqn:Hu. }
  destruct (runAwaited_tidy (ops ++ [AStop]) _ newMonitor_tidy) as (Hw & Hls & _).
  fold stopped in Hls, Hw. by rewrite Hnone in Hls.
Qed.

(** X8.  When every [startMonitoring()] before it was awaited, the state
    is frozen after [stopMonitoring()]: whatever the provider reports
    afterwards, the state stays what it was at the stop. *)
Theorem state_frozen_after_stop :
  ∀ (ops : list AwaitedOp) (ss : list NetInfo.NetInfoState),
    let stopped := runAwaited (newMonitor freshNetInfo) (ops ++ [AStop]) in
    state_ (runAwaited stopped (ANotify <$> ss)) = state_ stopped
    ∧ unsubscribe stopped = None
    ∧ stopMonitoring stopped = stopped.
Proof.
  intros ops ss stopped.
  destruct (stopped_session ops) as (Hnone & Hls & _).
  fold stopped in Hnone, Hls.
  split; [by apply runAwaited_notifications|]. split; [done|].
  unfold stopMonitoring. by rewrite Hnone.
Qed.

(** X9.  While the monitor is monitoring, the state is the last raw state
    that the provider reported, with an absent [isConnected] read as false:
    after a start (effective or not) and at least one notification, the
    state is the normalisation of the last notification. *)
Theorem state_follows_notifications :
  ∀ (ops : list AwaitedOp) (probe : NetInfo.NetInfoState)
    (ss : list NetInfo.NetInfoState) (s : NetInfo.NetInfoState),
    state_ (runAwaited (newMonitor freshNetInfo)
              (ops ++ AStart probe :: (ANotify <$> ss) ++ [ANotify s]))
    = {| isConnected := default false (NetInfo.isConnected s);
         connectionType := NetInfo.type s;
         isInternetReachable := NetInfo.isInternetReachable s |}.
Proof.
  intros ops probe ss s.
  replace (ops ++ AStart probe :: (ANotify <$> ss) ++ [ANotify s])
    with ((ops ++ AStart probe :: (ANotify <$> ss)) ++ [ANotify s])
    by (by rewrite <- app_assoc).
  rewrite runAwaited_snoc. cbn. rewrite notify_state.
  set (m := runAwaited _ _).
  destruct (runAwaited_tidy (ops ++ AStart probe :: (ANotify <$> ss)) _ newMonitor_tidy)
    as (_ & Hls & _).
  fold m in Hls.
  assert (is_Some (unsubscribe m)) as [l Hl].
  { subst m. replace (ops ++ AStart probe :: (ANotify <$> ss))
      with ((ops ++ [AStart probe]) ++ (ANotify <$> ss))
      by (by rewrite <- app_assoc).
    rewrite runAwaited_app, runAwaited_snoc, runAwaited_notifications_handle. cbn.
    apply startMonitoring_awaited_subscribes. }
  by rewrite Hls, Hl.
Qed.

(** X10.  Restart, when every [startMonitoring()] is awaited: a
    [startMonitoring()] awaited after a [stopMonitoring()] performs one
    more probe, takes the probe's result as the state, and registers one
    listener under an identity that was never used before. *)
Theorem restart_probes_again :
  ∀ (ops : list AwaitedOp) (probe : NetInfo.NetInfoState),
    let stopped := runAwaited (newMonitor freshNetInfo) (ops ++ [AStop]) in
    let m := startMonitoring_awaited probe stopped in
    fetchCalls (netInfo m) = S (fetchCalls (netInfo stopped))
    ∧ state_ m = {| isConnected := default false (NetInfo.isConnected probe);
                    connectionType := NetInfo.type probe;
                    isInternetReachable := NetInfo.isInternetReachable probe |}
    ∧ unsubscribe m = Some (nextListener (netInfo stopped))
    ∧ listeners (netInfo m) = [nextListener (netInfo stopped)].
Proof.
  intros ops probe stopped m.
  destruct (stopped_session ops) as (Hnone & Hls & Hw).
  fold stopped in Hnone, Hls, Hw. subst m.
  unfold startMonitoring_awaited, startMonitoring_call. rewrite Hnone. cbn.
  by rewrite Hls.
Qed.

End NetworkSessionProperties.

(** ** Histories of the poller *)

Section PollerHistoryProperties.
Import Poller PollerHistory.

Lemma run_app cfg w evs evs' :
  run cfg w (evs ++ evs') = run cfg (run cfg w evs) evs'.
Proof. unfold run. by rewrite fold_left_app. Qed.

Lemma run_cons cfg w ev evs :
  run cfg w (ev :: evs) = run cfg (step cfg w ev).2 evs.
Proof. reflexivity. Qed.

Lemma step_timersFresh cfg w ev : timersFresh cfg w → timersFresh cfg (step cfg w ev).2.
Proof.
  intros Hw. destruct ev as [| |h|s]; cbn.
  - destruct w as [[t running] [sch next] calls flying errs unh];
      unfold timersFresh, start, bind, modify, scheduleNext in *; cbn in *.
    destruct running; cbn; [done|].
    apply Forall_app. split.
    + eapply Forall_impl; [exact Hw|]. intros [h iv] [Hlt Hiv]. cbn in *. split; [lia|done].
    + apply Forall_singleton. cbn. split; [lia|done].
  - destruct w as [[[h|] running] [sch next] calls flying errs unh];
      unfold timersFresh, stop in *; cbn in *; [|done].
    rewrite Forall_forall in Hw. apply Forall_forall.
    intros e [_ He]%list_elem_of_filter. by apply Hw.
  - destruct (isScheduled h (timers w)); [|done].
    unfold timersFresh.
    by destruct (intervalCallback_frame cfg w) as (_ & _ & -> & _).
  - destruct (inFlight w) as [|k]; [done|].
    unfold timersFresh.
    by destruct (resumeAfterAwait_frame cfg s (setInFlight k w)) as (_ & _ & -> & _).
Qed.

Lemma run_timersFresh cfg evs : ∀ w, timersFresh cfg w → timersFresh cfg (run cfg w evs).
Proof.
  induction evs as [|ev evs IH]; intros w Hw; [done|].
  apply IH. by apply step_timersFresh.
Qed.

Lemma reachable_invariants cfg evs :
  consistent (run cfg initialWorld evs) ∧ timersFresh cfg (run cfg initialWorld evs).
Proof.
  split.
  - apply run_consistent, initialWorld_consistent.
  - apply run_timersFresh. constructor.
Qed.

Lemma stopped_world cfg evs :
  let w := run cfg initialWorld (evs ++ [Stop]) in
  timer (poller w) = None ∧ isRunning (poller w) = false ∧ scheduled (timers w) = [].
Proof.
  intros w.
  assert (timer (poller w) = None) as Ht.
  { subst w. rewrite run_snoc. cbn. unfold stop.
    by destruct (timer (poller (run cfg initialWorld evs))) eqn:Hu. }
  destruct (reachable_invariants cfg (evs ++ [Stop])) as [Hc _].
  fold w in Hc. unfold consistent in Hc. rewrite Ht in Hc. by destruct Hc.
Qed.

Lemma started_world cfg evs :
  let w := run cfg initialWorld (evs ++ [Start]) in
  ∃ h, timer (poller w) = Some h
       ∧ isRunning (poller w) = true
       ∧ scheduled (timers w) = [(h, period cfg)]
       ∧ (timerId h < nextTimer (timers w))%nat.
Proof.
  intros w.
  assert (isRunning (poller w) = true) as Hr.
  { subst w. rewrite run_snoc. cbn. unfold start, bind, modify, scheduleNext.
    by destruct (isRunning (poller (run cfg initialWorld evs))) eqn:Hu. }
  destruct (reachable_invariants cfg (evs ++ [Start])) as [Hc Hf].
  fold w in Hc, Hf. unfold consistent, timersFresh in *.
  destruct (timer (poller w)) as [h|]; destruct Hc as [Hr' Hs]; [|congruence].
  exists h. split; [done|]. split; [done|].
  destruct (scheduled (timers w)) as [|[h' iv] [|? ?]]; try discriminate.
  injection Hs as ->. apply Forall_singleton in Hf as [Hlt Hiv]. cbn in *.
  by subst iv.
Qed.

(** X11.  After [stop()] the poller is not running, it holds no timer
    handle, its interval has been cancelled with the timer provider (no
    interval is live), and a second [stop()] changes nothing.  The
    interval callback itself does not look at [isRunning]: if the provider
    still invoked it, it would call [refreshFn]. *)
Theorem stop_cancels_the_interval :
  ∀ (cfg : PollerConfig) (evs : list Event),
    let w := run cfg initialWorld (evs ++ [Stop]) in
    getIsRunning w = false
    ∧ timer (poller w) = None
    ∧ activeCallbacks w = 0%nat
    ∧ step cfg w Stop = (Js.Normal tt, w)
    ∧ refreshCalls (intervalCallback cfg w).2 = S (refreshCalls w).
Proof.
  intros cfg evs w.
  destruct (stopped_world cfg evs) as (Ht & Hr & Hs). fold w in Ht, Hr, Hs.
  unfold getIsRunning, activeCallbacks. rewrite Hr, Hs.
  split; [done|]. split; [done|]. split; [done|]. split.
  - cbn. unfold stop. by rewrite Ht.
  - apply intervalCallback_frame.
Qed.

Lemma fire_live cfg w h n :
  isScheduled h (timers w) = true →
  refreshCalls (run cfg w (replicate n (Fire h))) = (refreshCalls w + n)%nat
  ∧ timers (run cfg w (replicate n (Fire h))) = timers w.
Proof.
  revert w. induction n as [|n IH]; intros w Hlive; [by cbn; auto with lia|].
  cbn [replicate]. rewrite run_cons. cbn [step]. rewrite Hlive.
  destruct (intervalCallback_frame cfg w) as (_ & _ & Hts & Hcalls).
  destruct (IH (intervalCallback cfg w).2) as [-> ->]; [by rewrite Hts|].
  rewrite Hcalls, Hts. split; [lia|done].
Qed.

(** X12.  A running poller calls [refreshFn] exactly once per firing of
    its interval, whether or not earlier refreshes have completed or
    failed: after [start()], [n] firings make [n] calls. *)
Theorem one_refresh_per_firing :
  ∀ (cfg : PollerConfig) (evs : list Event) (n : nat),
    let w := run cfg initialWorld (evs ++ [Start]) in
    ∃ h, timer (poller w) = Some h
         ∧ refreshCalls (run cfg w (replicate n (Fire h))) = (refreshCalls w + n)%nat.
Proof.
  intros cfg evs n w.
  destruct (started_world cfg evs) as (h & Ht & _ & Hs & _). fold w in Ht, Hs.
  exists h. split; [done|].
  apply fire_live. unfold isScheduled. rewrite Hs. cbn.
  apply bool_decide_eq_true. set_solver.
Qed.

End PollerHistoryProperties.

Section PollerReports.
Import Poller PollerHistory.

Lemma step_quiet cfg w ev :
  neverThrows cfg → notRejection ev →
  onErrorCalls (step cfg w ev).2 = onErrorCalls w
  ∧ unhandledRejections (step cfg w ev).2 = unhandledRejections w.
Proof.
  intros Hcfg Hev. destruct ev as [| |h|[[]|v]]; cbn; [| | | |done].
  - unfold start, bind, modify, scheduleNext.
    by destruct (isRunning (poller w)).
  - unfold stop. by destruct (timer (poller w)).
  - destruct (isScheduled h (timers w)); [|done].
    unfold intervalCallback, voidAsync, tryCatch, callRefresh.
    destruct (refreshFn cfg (refreshCalls w)) as [v| |] eqn:Hcall; [|done..].
    by destruct (Hcfg _ _ Hcall).
  - by destruct (inFlight w).
Qed.

(** X13.  When no call of [refreshFn] throws and no refresh promise
    rejects, [onError] is never called and no promise is left rejected,
    whatever the sequence of starts, stops, firings and settlements. *)
Theorem successful_refreshes_report_nothing :
  ∀ (cfg : PollerConfig) (evs : list Event),
    neverThrows cfg →
    Forall notRejection evs →
    onErrorCalls (run cfg initialWorld evs) = []
    ∧ unhandledRejections (run cfg initialWorld evs) = [].
Proof.
  intros cfg evs Hcfg.
  change (Forall notRejection evs →
          onErrorCalls (run cfg initialWorld evs) = onErrorCalls initialWorld
          ∧ unhandledRejections (run cfg initialWorld evs)
            = unhandledRejections initialWorld).
  generalize initialWorld as w.
  induction evs as [|ev evs IH]; intros w Hevs; [done|].
  apply Forall_cons in Hevs as [Hev Hevs].
  rewrite run_cons. destruct (IH (step cfg w ev).2 Hevs) as [-> ->].
  by apply step_quiet.
Qed.

Lemma successful_refreshes_report_nothing_witness :
  onErrorCalls (run testConfig initialWorld
                  [Start; Fire {| timerId := 0 |}; Settle (Js.Fulfilled tt);
                   Fire {| timerId := 0 |}; Stop]) = []
  ∧ unhandledRejections (run testConfig initialWorld
                           [Start; Fire {| timerId := 0 |}; Settle (Js.Fulfilled tt);
                            Fire {| timerId := 0 |}; Stop]) = [].
Proof.
  apply (successful_refreshes_report_nothing testConfig).
  - intros k v. discriminate.
  - repeat constructor.
Defined.

(** X14.  Handles are not reused: after [stop()] and a new [start()] the
    poller holds a handle different from the one it had, it is running, and
    exactly one interval is live, the one of the new handle. *)
Theorem restart_takes_a_new_handle :
  ∀ (cfg : PollerConfig) (evs : list Event),
    let w := run cfg initialWorld (evs ++ [Start]) in
    let w' := run cfg w [Stop; Start] in
    ∃ h h', timer (poller w) = Some h
            ∧ timer (poller w') = Some h'
            ∧ h' ≠ h
            ∧ getIsRunning w' = true
            ∧ activeCallbacks w' = 1%nat
            ∧ (scheduled (timers w')).*1 = [h'].
Proof.
  intros cfg evs w w'.
  destruct (started_world cfg evs) as (h & Ht & Hr & Hs & Hlt).
  fold w in Ht, Hr, Hs, Hlt.
  exists h, {| timerId := nextTimer (timers w) |}.
  assert (h ≠ {| timerId := nextTimer (timers w) |}) as Hne.
  { intros ->. cbn in Hlt. lia. }
  subst w'. destruct w as [[t running] [sch next] calls flying errs unh].
  cbn in *. subst t running sch. cbn.
  rewrite decide_False by (intros Hh; apply Hh; reflexivity). cbn.
  split; [done|]. split; [done|]. split; [done|]. split; [done|]. done.
Qed.

(** X15.  The live interval of a started poller is scheduled with the
    period [intervalMs] of the configuration, or 10000 ms when the
    configuration gives none. *)
Theorem interval_period :
  ∀ (cfg : PollerConfig) (evs : list Event),
    let w := run cfg initialWorld (evs ++ [Start]) in
    ∃ h, scheduled (timers w)
         = [(h, match intervalMs cfg with Some ms => ms | None => 10000 end)].
Proof.
  intros cfg evs w.
  destruct (started_world cfg evs) as (h & _ & _ & Hs & _). fold w in Hs.
  exists h. rewrite Hs. unfold period, DEFAULT_INTERVAL_MS.
  by destruct (intervalMs cfg).
Qed.

Lemma step_accounting cfg w ev :
  (length (onErrorCalls w) + inFlight w ≤ refreshCalls w)%nat →
  (length (onErrorCalls (step cfg w ev).2) + inFlight (step cfg w ev).2
   ≤ refreshCalls (step cfg w ev).2)%nat.
Proof.
  intros Hw. destruct ev as [| |h|s]; cbn.
  - unfold start, bind, modify, scheduleNext.
    by destruct (isRunning (poller w)).
  - unfold stop. by destruct (timer (poller w)).
  - destruct (isScheduled h (timers w)); [|done].
    unfold intervalCallback, voidAsync, tryCatch, callRefresh, catchBlock, ret.
    destruct (refreshFn cfg (refreshCalls w)) as [v| |]; cbn; [|lia..].
    destruct (onError cfg) as [f|]; cbn; [|lia].
    destruct (f _); cbn; rewrite length_app; cbn; lia.
  - destruct (inFlight w) as [|k] eqn:Hk; [cbn; lia|].
    unfold resumeAfterAwait, voidAsync, tryCatch, catchBlock, ret, throw.
    destruct s as [[]|v]; cbn; [lia|].
    destruct (onError cfg) as [f|]; cbn; [|lia].
    destruct (f _); cbn; rewrite length_app; cbn; lia.
Qed.

(** X16.  [onError] is called at most once per call of [refreshFn]: at
    every moment the number of errors reported plus the number of refresh
    promises still pending is at most the number of calls made. *)
Theorem at_most_one_report_per_refresh :
  ∀ (cfg : PollerConfig) (evs : list Event),
    let w := run cfg initialWorld evs in
    (length (onErrorCalls w) + inFlight w ≤ refreshCalls w)%nat.
Proof.
  intros cfg evs. cbv zeta.
  assert (length (onErrorCalls initialWorld) + inFlight initialWorld
          ≤ refreshCalls initialWorld)%nat as Hinit by (cbn; lia).
  revert Hinit. generalize initialWorld as w.
  induction evs as [|ev evs IH]; intros w Hw; [done|].
  rewrite run_cons. apply IH. by apply step_accounting.
Qed.

(** X17.  [stop()] does not cancel a refresh that is already under way:
    when its promise rejects after the stop, [onError] still receives the
    error, and the poller stays stopped. *)
Theorem rejection_after_stop_is_reported :
  ∀ (cfg : PollerConfig) (evs : list Event) (v : Js.Value),
    let w := run cfg initialWorld (evs ++ [Stop]) in
    inFlight w ≠ 0%nat →
    let w' := (step cfg w (Settle (Js.Rejected v))).2 in
    onErrorCalls w' = onErrorCalls w ++ delivered cfg v
    ∧ inFlight w' = pred (inFlight w)
    ∧ getIsRunning w' = false
    ∧ activeCallbacks w' = 0%nat.
Proof.
  intros cfg evs v w Hflying w'.
  destruct (stopped_world cfg evs) as (Ht & Hr & Hs). fold w in Ht, Hr, Hs.
  subst w'. cbn. destruct (inFlight w) as [|k] eqn:Hk; [done|].
  rewrite resumeAfterAwait_rejected.
  destruct (resumeAfterAwait_frame cfg (Js.Rejected v) (setInFlight k w))
    as (_ & Hp & Hts & _).
  unfold getIsRunning, activeCallbacks. rewrite Hp, Hts. cbn. rewrite Hr, Hs.
  split; [done|]. split; [|done].
  unfold resumeAfterAwait, voidAsync, tryCatch, catchBlock, ret, throw.
  destruct (onError cfg) as [f|]; [|done]. by destruct (f _).
Qed.

Lemma rejection_after_stop_is_reported_witness :
  let w := run testConfig initialWorld
             ([Start; Fire {| timerId := 0 |}] ++ [Stop]) in
  let w' := (step testConfig w (Settle (Js.Rejected (Js.Str "late")))).2 in
  onErrorCalls w' = onErrorCalls w ++ delivered testConfig (Js.Str "late")
  ∧ inFlight w' = pred (inFlight w)
  ∧ getIsRunning w' = false
  ∧ activeCallbacks w' = 0%nat.
Proof.
  apply (rejection_after_stop_is_reported testConfig
           [Start; Fire {| timerId := 0 |}] (Js.Str "late")).
  vm_compute. discriminate.
Defined.

End PollerReports.

(** ** The query manager: [delete], and the manager on the in-memory client *)

Section CrudProperties.
Import SupabaseQueryManager.

(** X18.  When the [id] given to [delete] is null or undefined, the
    returned promise rejects with an [Error] whose message is
    "delete(): '<fieldId>' must be non-null", and the backend is untouched
    whatever awaiting a delete query would have done to it. *)
Theorem delete_requires_non_null_id :
  ∀ (Backend : Type)
    (awaitDelete : SupabaseCrud.From → string → Js.Value → Backend
                   → PostgrestResponse * Backend)
    (collection : string) (id : Js.Value) (fieldId : string) (b : Backend),
    Js.isNullish id = true →
    SupabaseCrud.delete awaitDelete collection id fieldId b
    = (Js.Rejected (Js.ErrorObj (Js.newError
         (("delete(): '" +:+ fieldId +:+ "'") +:+ " must be non-null"))), b)
    ∧ contains "must be non-null"
        (("delete(): '" +:+ fieldId +:+ "'") +:+ " must be non-null").
Proof.
  intros Backend awaitDelete collection id fieldId b Hnull. split.
  - unfold SupabaseCrud.delete, assertNonNull. by rewrite Hnull.
  - exists (("delete(): '" +:+ fieldId +:+ "'") +:+ " "), "".
    by rewrite (string_app_assoc _ " " _).
Qed.

Lemma delete_requires_non_null_id_witness :
  SupabaseCrud.delete TestSupabaseClient.awaitDelete "users" Js.Undefined "id"
    (TestSupabaseClient.seed "users" [alice] TestSupabaseClient.emptyStore)
  = (Js.Rejected (Js.ErrorObj (Js.newError
       (("delete(): '" +:+ "id" +:+ "'") +:+ " must be non-null"))),
     TestSupabaseClient.seed "users" [alice] TestSupabaseClient.emptyStore)
  ∧ contains "must be non-null" (("delete(): '" +:+ "id" +:+ "'") +:+ " must be non-null").
Proof.
  apply (delete_requires_non_null_id TestSupabaseClient.Store
           TestSupabaseClient.awaitDelete "users" Js.Undefined "id").
  reflexivity.
Defined.

End CrudProperties.

Section TestClientProperties.
Import SupabaseQueryManager SupabaseCrud TestSupabaseClient.

Lemma recordsOf_insert q records st :
  recordsOf q {| data := <[key q := records]> (data st); errors := errors st |} = records.
Proof. unfold recordsOf. cbn. by rewrite lookup_insert_eq. Qed.

(** X19.  On the in-memory client, a record created in a table without a
    simulated error is returned by [create], and a [fetch] of that table in
    the schema "public" then returns the records that were there followed
    by the new one. *)
Theorem create_then_fetch :
  ∀ (table : string) (input : Row) (st : Store),
    errors st !! key (publicTable table) = None →
    ∃ st',
      create table input st = (Js.Fulfilled (Some input), st')
      ∧ fetch table "public" st'
        = (Js.Fulfilled (Some (recordsOf (publicTable table) st ++ [input])), st').
Proof.
  intros table input st Herr.
  exists {| data := <[key (publicTable table)
                     := recordsOf (publicTable table) st ++ [input]]> (data st);
            errors := errors st |}.
  split.
  - unfold create, SupabaseCrud.create, awaitInsert.
    fold (publicTable table). by rewrite Herr.
  - unfold fetch, SupabaseCrud.fetch, awaitSelect, selectAll.
    change (key {| fromSchema := Some "public"; fromTable := table |})
      with (key (publicTable table)).
    cbn [errors]. rewrite Herr.
    change (recordsOf {| fromSchema := Some "public"; fromTable := table |})
      with (recordsOf (publicTable table)).
    by rewrite recordsOf_insert.
Qed.

Lemma create_then_fetch_witness :
  ∃ st',
    create "users" ghostWithoutId (seed "users" [alice] emptyStore)
    = (Js.Fulfilled (Some ghostWithoutId), st')
    ∧ fetch "users" "public" st'
      = (Js.Fulfilled
           (Some (recordsOf (publicTable "users") (seed "users" [alice] emptyStore)
                  ++ [ghostWithoutId])), st').
Proof.
  apply (create_then_fetch "users" ghostWithoutId (seed "users" [alice] emptyStore)).
  reflexivity.
Defined.

(** X20.  On the in-memory client, [update] of a table without a simulated
    error changes the first record whose [fieldId] equals [input[fieldId]]:
    it returns that record overlaid with [input], which keeps every field
    that [input] does not have and still carries the same id, and it stores
    it in place of the old one. *)
Theorem update_merges_into_first_match :
  ∀ (table : string) (input : Row) (fieldId : string) (st : Store)
    (index : nat) (r : Row),
    errors st !! key (publicTable table) = None →
    Js.isNullish (getField input fieldId) = false →
    findRecord fieldId (getField input fieldId) (recordsOf (publicTable table) st)
    = Some (index, r) →
    ∃ st',
      update table input fieldId st = (Js.Fulfilled (Some (input ∪ r)), st')
      ∧ recordsOf (publicTable table) st'
        = <[index := input ∪ r]> (recordsOf (publicTable table) st)
      ∧ errors st' = errors st
      ∧ (∀ k, input !! k = None → (input ∪ r) !! k = r !! k)
      ∧ (∀ k v, input !! k = Some v → (input ∪ r) !! k = Some v)
      ∧ getField (input ∪ r) fieldId = getField r fieldId.
Proof.
  intros table input fieldId st index r Herr Hid Hfind.
  exists {| data := <[key (publicTable table)
                     := <[index := input ∪ r]> (recordsOf (publicTable table) st)]> (data st);
            errors := errors st |}.
  split; [|split; [|split; [|split; [|split]]]].
  - unfold update, SupabaseQueryManager.update, assertNonNull. rewrite Hid.
    unfold awaitUpdate. cbn [collection eqField eqValue values backend].
    by rewrite Herr, Hfind.
  - apply recordsOf_insert.
  - done.
  - intros k Hk. by apply lookup_union_r.
  - intros k v Hk. by apply lookup_union_Some_l.
  - apply list_find_Some in Hfind as (_ & Hmatch & _).
    destruct (input !! fieldId) as [v|] eqn:Hv.
    + rewrite Hmatch. unfold getField.
      by rewrite (lookup_union_Some_l _ _ _ _ Hv), Hv.
    + unfold getField. by rewrite (lookup_union_r _ _ _ Hv).
Qed.

Lemma update_merges_into_first_match_witness :
  ∃ st',
    update "users" aliceUpdated "id" (seed "users" [alice] emptyStore)
    = (Js.Fulfilled (Some (aliceUpdated ∪ alice)), st')
    ∧ recordsOf (publicTable "users") st'
      = <[0%nat := aliceUpdated ∪ alice]>
          (recordsOf (publicTable "users") (seed "users" [alice] emptyStore))
    ∧ errors st' = errors (seed "users" [alice] emptyStore)
    ∧ (∀ k, aliceUpdated !! k = None → (aliceUpdated ∪ alice) !! k = alice !! k)
    ∧ (∀ k v, aliceUpdated !! k = Some v → (aliceUpdated ∪ alice) !! k = Some v)
    ∧ getField (aliceUpdated ∪ alice) "id" = getField alice "id".
Proof.
  apply (update_merges_into_first_match "users" aliceUpdated "id"
           (seed "users" [alice] emptyStore) 0%nat alice); reflexivity.
Defined.

End TestClientProperties.

Section TestClientMutations.
Import SupabaseQueryManager SupabaseCrud TestSupabaseClient.

(** X21.  On the in-memory client, when no record of the table has the
    given id under [fieldId], [delete] and [update] both fulfil with null
    and leave the store exactly as it was. *)
Theorem missing_record_gives_null :
  ∀ (table fieldId : string) (id : Js.Value) (st : Store),
    errors st !! key (publicTable table) = None →
    Js.isNullish id = false →
    findRecord fieldId id (recordsOf (publicTable table) st) = None →
    delete table id fieldId st = (Js.Fulfilled None, st)
    ∧ ∀ input, getField input fieldId = id →
               update table input fieldId st = (Js.Fulfilled None, st).
Proof.
  intros table fieldId id st Herr Hid Hfind. split.
  - unfold delete, SupabaseCrud.delete, assertNonNull. rewrite Hid.
    unfold awaitDelete. fold (publicTable table). by rewrite Herr, Hfind.
  - intros input <-.
    unfold update, SupabaseQueryManager.update, assertNonNull. rewrite Hid.
    unfold awaitUpdate. cbn [collection eqField eqValue values backend].
    by rewrite Herr, Hfind.
Qed.

Lemma missing_record_gives_null_witness :
  delete "users" (Js.Str "999") "id" (seed "users" [alice] emptyStore)
  = (Js.Fulfilled None, seed "users" [alice] emptyStore)
  ∧ ∀ input, getField input "id" = Js.Str "999" →
             update "users" input "id" (seed "users" [alice] emptyStore)
             = (Js.Fulfilled None, seed "users" [alice] emptyStore).
Proof.
  apply (missing_record_gives_null "users" "id" (Js.Str "999")
           (seed "users" [alice] emptyStore)); reflexivity.
Defined.

(** X22.  On the in-memory client, [delete] removes the first record whose
    [fieldId] equals the id, and only that one: it returns it, the table
    has one record less, the records before it are kept and none of them
    had the id. *)
Theorem delete_removes_first_match :
  ∀ (table fieldId : string) (id : Js.Value) (st : Store) (index : nat) (r : Row),
    errors st !! key (publicTable table) = None →
    Js.isNullish id = false →
    findRecord fieldId id (recordsOf (publicTable table) st) = Some (index, r) →
    ∃ st',
      delete table id fieldId st = (Js.Fulfilled (Some r), st')
      ∧ recordsOf (publicTable table) st'
        = take index (recordsOf (publicTable table) st)
          ++ drop (S index) (recordsOf (publicTable table) st)
      ∧ S (length (recordsOf (publicTable table) st'))
        = length (recordsOf (publicTable table) st)
      ∧ recordsOf (publicTable table) st !! index = Some r
      ∧ getField r fieldId = id
      ∧ Forall (λ r', getField r' fieldId ≠ id)
               (take index (recordsOf (publicTable table) st)).
Proof.
  intros table fieldId id st index r Herr Hid Hfind.
  exists {| data := <[key (publicTable table)
                     := base.delete index (recordsOf (publicTable table) st)]> (data st);
            errors := errors st |}.
  pose proof Hfind as (Hlook & Hmatch & Hfirst)%list_find_Some.
  split; [|split; [|split; [|split; [|split]]]].
  - unfold delete, SupabaseCrud.delete, assertNonNull. rewrite Hid.
    unfold awaitDelete. fold (publicTable table). by rewrite Herr, Hfind.
  - rewrite recordsOf_insert. apply delete_take_drop.
  - rewrite recordsOf_insert, length_delete by eauto.
    apply lookup_lt_Some in Hlook. lia.
  - done.
  - done.
  - apply Forall_forall. intros r' Hin.
    apply list_elem_of_lookup in Hin as [j Hj].
    apply lookup_take_Some in Hj as [Hj Hlt].
    by apply (Hfirst j r').
Qed.

Lemma delete_removes_first_match_witness :
  ∃ st',
    delete "users" (Js.Str "1") "id" (seed "users" [alice] emptyStore)
    = (Js.Fulfilled (Some alice), st')
    ∧ recordsOf (publicTable "users") st'
      = take 0 (recordsOf (publicTable "users") (seed "users" [alice] emptyStore))
        ++ drop 1 (recordsOf (publicTable "users") (seed "users" [alice] emptyStore))
    ∧ S (length (recordsOf (publicTable "users") st'))
      = length (recordsOf (publicTable "users") (seed "users" [alice] emptyStore))
    ∧ recordsOf (publicTable "users") (seed "users" [alice] emptyStore) !! 0%nat
      = Some alice
    ∧ getField alice "id" = Js.Str "1"
    ∧ Forall (λ r', getField r' "id" ≠ Js.Str "1")
             (take 0 (recordsOf (publicTable "users") (seed "users" [alice] emptyStore))).
Proof.
  apply (delete_removes_first_match "users" "id" (Js.Str "1")
           (seed "users" [alice] emptyStore) 0%nat alice); reflexivity.
Defined.

(** X23.  On the in-memory client, while a table has a simulated error,
    [fetch], [create], [update] and [delete] (the last two with an id that
    is not null) all reject with an [Error] carrying that message, and
    none of them changes the store. *)
Theorem simulated_error_rejects_everything :
  ∀ (table errorMessage : string) (st : Store) (input : Row) (fieldId : string)
    (id : Js.Value),
    errors st !! key (publicTable table) = Some errorMessage →
    Js.isNullish id = false →
    getField input fieldId = id →
    fetch table "public" st
    = (Js.Rejected (Js.ErrorObj (Js.newError errorMessage)), st)
    ∧ create table input st
      = (Js.Rejected (Js.ErrorObj (Js.newError errorMessage)), st)
    ∧ update table input fieldId st
      = (Js.Rejected (Js.ErrorObj (Js.newError errorMessage)), st)
    ∧ delete table id fieldId st
      = (Js.Rejected (Js.ErrorObj (Js.newError errorMessage)), st).
Proof.
  intros table errorMessage st input fieldId id Herr Hid <-.
  split; [|split; [|split]].
  - unfold fetch, SupabaseCrud.fetch, awaitSelect, selectAll.
    change (key {| fromSchema := Some "public"; fromTable := table |})
      with (key (publicTable table)).
    by rewrite Herr.
  - unfold create, SupabaseCrud.create, awaitInsert.
    fold (publicTable table). by rewrite Herr.
  - unfold update, SupabaseQueryManager.update, assertNonNull. rewrite Hid.
    unfold awaitUpdate. cbn [collection eqField eqValue values backend].
    by rewrite Herr.
  - unfold delete, SupabaseCrud.delete, assertNonNull. rewrite Hid.
    unfold awaitDelete. fold (publicTable table). by rewrite Herr.
Qed.

Lemma simulated_error_rejects_everything_witness :
  let st := setError "users" "Permission denied" (seed "users" [alice] emptyStore) in
  fetch "users" "public" st
  = (Js.Rejected (Js.ErrorObj (Js.newError "Permission denied")), st)
  ∧ create "users" aliceUpdated st
    = (Js.Rejected (Js.ErrorObj (Js.newError "Permission denied")), st)
  ∧ update "users" aliceUpdated "id" st
    = (Js.Rejected (Js.ErrorObj (Js.newError "Permission denied")), st)
  ∧ delete "users" (Js.Str "1") "id" st
    = (Js.Rejected (Js.ErrorObj (Js.newError "Permission denied")), st).
Proof.
  apply (simulated_error_rejects_everything "users" "Permission denied"
           (setError "users" "Permission denied" (seed "users" [alice] emptyStore))
           aliceUpdated "id" (Js.Str "1")); reflexivity.
Defined.

Lemma create_store table input st :
  errors st !! key (publicTable table) = None →
  create table input st
  = (Js.Fulfilled (Some input),
     {| data := <[key (publicTable table)
                 := recordsOf (publicTable table) st ++ [input]]> (data st);
        errors := errors st |}).
Proof.
  intros Herr. unfold create, SupabaseCrud.create, awaitInsert.
  fold (publicTable table). by rewrite Herr.
Qed.

Lemma delete_store table fieldId id st index r :
  errors st !! key (publicTable table) = None →
  Js.isNullish id = false →
  findRecord fieldId id (recordsOf (publicTable table) st) = Some (index, r) →
  delete table id fieldId st
  = (Js.Fulfilled (Some r),
     {| data := <[key (publicTable table)
                 := base.delete index (recordsOf (publicTable table) st)]> (data st);
        errors := errors st |}).
Proof.
  intros Herr Hid Hfind.
  unfold delete, SupabaseCrud.delete, assertNonNull. rewrite Hid.
  unfold awaitDelete. fold (publicTable table). by rewrite Herr, Hfind.
Qed.

(** X24.  On the in-memory client, creating a record whose id no record of
    the table has and then deleting by that id gives the record back and
    restores the table: a following [fetch] returns the records that were
    there before the [create]. *)
Theorem create_then_delete_restores :
  ∀ (table fieldId : string) (input : Row) (st : Store),
    errors st !! key (publicTable table) = None →
    Js.isNullish (getField input fieldId) = false →
    findRecord fieldId (getField input fieldId) (recordsOf (publicTable table) st) = None →
    ∃ st1 st2,
      create table input st = (Js.Fulfilled (Some input), st1)
      ∧ delete table (getField input fieldId) fieldId st1
        = (Js.Fulfilled (Some input), st2)
      ∧ fetch table "public" st2
        = (Js.Fulfilled (Some (recordsOf (publicTable table) st)), st2).
Proof.
  intros table fieldId input st Herr Hid Hfind.
  set (st1 := {| data := <[key (publicTable table)
                           := recordsOf (publicTable table) st ++ [input]]> (data st);
                 errors := errors st |}).
  assert (recordsOf (publicTable table) st1
          = recordsOf (publicTable table) st ++ [input]) as Hrec1
    by apply recordsOf_insert.
  assert (findRecord fieldId (getField input fieldId) (recordsOf (publicTable table) st1)
          = Some (length (recordsOf (publicTable table) st), input)) as Hfind1.
  { rewrite Hrec1. unfold findRecord in *. rewrite list_find_app_r by done.
    cbn. by rewrite decide_True. }
  exists st1. eexists. split; [by apply create_store|].
  split; [by apply (delete_store table fieldId _ st1 _ _ Herr Hid Hfind1)|].
  unfold fetch, SupabaseCrud.fetch, awaitSelect, selectAll.
  change (key {| fromSchema := Some "public"; fromTable := table |})
    with (key (publicTable table)).
  assert (errors st1 !! key (publicTable table) = None) as Herr1 by exact Herr.
  cbn [errors]. rewrite Herr1.
  change (recordsOf {| fromSchema := Some "public"; fromTable := table |})
    with (recordsOf (publicTable table)).
  rewrite recordsOf_insert, Hrec1.
  by rewrite (delete_middle _ []), app_nil_r.
Qed.

Lemma create_then_delete_restores_witness :
  ∃ st1 st2,
    create "users" aliceUpdated emptyStore = (Js.Fulfilled (Some aliceUpdated), st1)
    ∧ delete "users" (getField aliceUpdated "id") "id" st1
      = (Js.Fulfilled (Some aliceUpdated), st2)
    ∧ fetch "users" "public" st2
      = (Js.Fulfilled (Some (recordsOf (publicTable "users") emptyStore)), st2).
Proof.
  apply (create_then_delete_restores "users" "id" aliceUpdated emptyStore);
    reflexivity.
Defined.

End TestClientMutations.

Section TestClientSchemas.
Import SupabaseQueryManager SupabaseCrud TestSupabaseClient.

Lemma string_length_app (s1 s2 : string) :
  String.length (s1 +:+ s2) = (String.length s1 + String.length s2)%nat.
Proof.
  induction s1 as [|a s1 IH]; [done|].
  change (S (String.length (s1 +:+ s2)) = S (String.length s1 + String.length s2)).
  by rewrite IH.
Qed.

Lemma string_app_inv_tail (x : string) : ∀ s1 s2 : string,
  s1 +:+ x = s2 +:+ x → s1 = s2.
Proof.
  induction s1 as [|a s1 IH]; intros [|b s2] Heq; [done| | |].
  - apply (f_equal String.length) in Heq.
    change (String b s2 +:+ x) with (String b (s2 +:+ x)) in Heq.
    change ("" +:+ x) with x in Heq.
    cbn in Heq. rewrite string_length_app in Heq. lia.
  - apply (f_equal String.length) in Heq.
    change (String a s1 +:+ x) with (String a (s1 +:+ x)) in Heq.
    change ("" +:+ x) with x in Heq.
    cbn in Heq. rewrite string_length_app in Heq. lia.
  - change (String a (s1 +:+ x) = String b (s2 +:+ x)) in Heq.
    injection Heq as -> Heq. f_equal. by apply IH.
Qed.

Lemma key_other_schema table schema :
  schema ≠ "public" →
  key {| fromSchema := Some schema; fromTable := table |} ≠ key (publicTable table).
Proof.
  intros Hne Heq. apply Hne. unfold key in Heq. cbn in Heq.
  by apply (string_app_inv_tail ("." +:+ table)).
Qed.

(** X25.  [create] always writes to the schema of the client given to the
    manager, while [fetch] reads the schema it is given: on the in-memory
    client, a record created through the manager is not seen by a [fetch]
    of the same table in a schema other than "public". *)
Theorem create_is_invisible_in_other_schema :
  ∀ (table schema : string) (input : Row) (st : Store),
    schema ≠ "public" →
    errors st !! key (publicTable table) = None →
    ∃ st',
      create table input st = (Js.Fulfilled (Some input), st')
      ∧ (fetch table schema st').1 = (fetch table schema st).1.
Proof.
  intros table schema input st Hschema Herr.
  eexists. split; [by apply create_store|].
  unfold fetch, SupabaseCrud.fetch, awaitSelect, selectAll, recordsOf.
  cbn [errors data].
  rewrite lookup_insert_ne by (intros Heq; by apply (key_other_schema table schema)).
  destruct (errors st !! key {| fromSchema := Some schema; fromTable := table |});
    reflexivity.
Qed.

Lemma create_is_invisible_in_other_schema_witness :
  ∃ st',
    create "users" aliceUpdated (seed "users" [alice] emptyStore)
    = (Js.Fulfilled (Some aliceUpdated), st')
    ∧ (fetch "users" "archive" st').1
      = (fetch "users" "archive" (seed "users" [alice] emptyStore)).1.
Proof.
  apply (create_is_invisible_in_other_schema "users" "archive" aliceUpdated
           (seed "users" [alice] emptyStore)).
  - discriminate.
  - reflexivity.
Defined.

End TestClientSchemas.
